(** * ConvertorXMLJson: the XML -> JSON normalizer and its conversion shell

    A shallow embedding of [normalizeXmlJs] and [onConvert] (the App
    component of the converter) together with the JavaScript built-ins they
    call: property assignment on a plain object, [Object.keys],
    [Object.entries], [Array.prototype.map], [String.prototype.trim],
    [JSON.stringify] and [JSON.parse].

    JavaScript values are modelled as plain data: [undefined], [null],
    booleans, numbers, strings, dense arrays and ordinary objects holding own
    enumerable data properties.  A string is its sequence of UTF-16 code
    units. *)

From Stdlib Require Import List NArith Ascii String Bool Lia Arith.
From Stdlib Require Import Floats.SpecFloat.
Import ListNotations.

Local Open Scope N_scope.
Local Open Scope list_scope.

(* ================================================================== *)
(** ** Strings *)

(** A code unit is a number below 2^16; a string is a list of them. *)
Abbreviation code_unit := N (only parsing).
Abbreviation jsstring := (list N) (only parsing).

(** A string literal of the source, as code units. *)
Definition js (s : string) : jsstring :=
  map N_of_ascii (list_ascii_of_string s).

(** [===] on two strings. *)
Fixpoint str_eqb (a b : jsstring) : bool :=
  match a, b with
  | [], [] => true
  | x :: a', y :: b' => (x =? y) && str_eqb a' b'
  | _, _ => false
  end.

(* ================================================================== *)
(** ** Values *)

Unset Elimination Schemes.
Inductive value : Type :=
| VUndefined
| VNull
| VBool (b : bool)
| VNumber (x : spec_float)
| VString (s : jsstring)
| VArray (l : list value)
| VObject (o : list (jsstring * value)).
Set Elimination Schemes.

(** The own enumerable properties of an object, in the order in which
    [Object.keys] lists them. *)
Abbreviation props := (list (list N * value)) (only parsing).

Section ValueInd.
Variable P : value -> Prop.
Hypothesis Hundef : P VUndefined.
Hypothesis Hnull : P VNull.
Hypothesis Hbool : forall b, P (VBool b).
Hypothesis Hnum : forall x, P (VNumber x).
Hypothesis Hstr : forall s, P (VString s).
Hypothesis Harr : forall l, Forall P l -> P (VArray l).
Hypothesis Hobj : forall o, Forall (fun kv => P (snd kv)) o -> P (VObject o).

Fixpoint value_induction (v : value) : P v :=
  match v with
  | VUndefined => Hundef
  | VNull => Hnull
  | VBool b => Hbool b
  | VNumber x => Hnum x
  | VString s => Hstr s
  | VArray l =>
      Harr l ((fix go (l : list value) : Forall P l :=
                 match l with
                 | [] => Forall_nil _
                 | x :: l' => Forall_cons _ (value_induction x) (go l')
                 end) l)
  | VObject o =>
      Hobj o ((fix go (o : props) : Forall (fun kv => P (snd kv)) o :=
                 match o with
                 | [] => Forall_nil _
                 | kv :: o' => Forall_cons _ (value_induction (snd kv)) (go o')
                 end) o)
  end.
End ValueInd.

(** [Array.isArray(v)]. *)
Definition Array_isArray (v : value) : bool :=
  match v with VArray _ => true | _ => false end.

(** [typeof v]. *)
Definition typeof (v : value) : jsstring :=
  match v with
  | VUndefined => js "undefined"
  | VNull => js "object"
  | VBool _ => js "boolean"
  | VNumber _ => js "number"
  | VString _ => js "string"
  | VArray _ => js "object"
  | VObject _ => js "object"
  end.

(** ToBoolean: what [if (v)], [v && ...], [v || ...] and [!v] test. *)
Definition truthy (v : value) : bool :=
  match v with
  | VUndefined | VNull => false
  | VBool b => b
  | VNumber (S754_zero _) | VNumber S754_nan => false
  | VNumber _ => true
  | VString s => negb (str_eqb s [])
  | VArray _ | VObject _ => true
  end.

(** The test [v && typeof v === 'object']. *)
Definition is_object_like (v : value) : bool :=
  truthy v && str_eqb (typeof v) (js "object").

(* ================================================================== *)
(** ** Property keys *)

(** ToString of a non-negative integer. *)
Fixpoint uint_digits (d : Decimal.uint) : jsstring :=
  match d with
  | Decimal.Nil => []
  | Decimal.D0 d' => 48 :: uint_digits d'
  | Decimal.D1 d' => 49 :: uint_digits d'
  | Decimal.D2 d' => 50 :: uint_digits d'
  | Decimal.D3 d' => 51 :: uint_digits d'
  | Decimal.D4 d' => 52 :: uint_digits d'
  | Decimal.D5 d' => 53 :: uint_digits d'
  | Decimal.D6 d' => 54 :: uint_digits d'
  | Decimal.D7 d' => 55 :: uint_digits d'
  | Decimal.D8 d' => 56 :: uint_digits d'
  | Decimal.D9 d' => 57 :: uint_digits d'
  end.

Definition decimal_of_N (n : N) : jsstring := uint_digits (N.to_uint n).

Definition is_digit (c : code_unit) : bool := (48 <=? c) && (c <=? 57).

Definition digits_value (k : jsstring) : N :=
  fold_left (fun acc c => acc * 10 + (c - 48)) k 0.

(** An array index is a key [k] with [ToString(ToUint32(k)) === k] and
    [ToUint32(k) !== 2^32 - 1].  Such keys are enumerated first, by value. *)
Definition array_index (k : jsstring) : option N :=
  let n := digits_value k in
  if forallb is_digit k && str_eqb (decimal_of_N n) k && (n <? 4294967295)
  then Some n else None.

Definition key_attributes : jsstring := js "_attributes".
Definition key_text : jsstring := js "_text".
Definition key_declaration : jsstring := js "_declaration".
Definition key_proto : jsstring := js "__proto__".

(* ================================================================== *)
(** ** Ordinary objects *)

Definition has_key (k : jsstring) (o : props) : bool :=
  existsb (fun kv => str_eqb k (fst kv)) o.

(** The own property [k] of [o], if there is one. *)
Fixpoint obj_get (o : props) (k : jsstring) : option value :=
  match o with
  | [] => None
  | (k', v) :: o' => if str_eqb k k' then Some v else obj_get o' k
  end.

(** [o.k] on a plain object: a missing property reads as [undefined]. *)
Definition prop (o : props) (k : jsstring) : value :=
  match obj_get o k with Some v => v | None => VUndefined end.

(** Overwriting an existing property keeps its place in the enumeration. *)
Fixpoint obj_replace (o : props) (k : jsstring) (v : value) : props :=
  match o with
  | [] => []
  | (k', v') :: o' =>
      if str_eqb k k' then (k', v) :: o' else (k', v') :: obj_replace o' k v
  end.

(** Does a new key [k] come before the existing key [k'] in the
    enumeration?  Array indices come first, in ascending order; all other
    keys follow in creation order. *)
Definition enumerates_before (k k' : jsstring) : bool :=
  match array_index k, array_index k' with
  | Some i, Some j => i <? j
  | Some _, None => true
  | None, _ => false
  end.

Fixpoint obj_insert (o : props) (k : jsstring) (v : value) : props :=
  match o with
  | [] => [(k, v)]
  | (k', v') :: o' =>
      if enumerates_before k k' then (k, v) :: (k', v') :: o'
      else (k', v') :: obj_insert o' k v
  end.

(** CreateDataProperty: define the own property [k] (as [JSON.parse] and
    object construction do). *)
Definition obj_define (o : props) (k : jsstring) (v : value) : props :=
  if has_key k o then obj_replace o k v else obj_insert o k v.

(** The assignment [out[k] = v] on an object created by [{}].  For every
    key but ["__proto__"] it defines or overwrites an own property.  The
    key ["__proto__"] is not an own property of such an object: the
    assignment reaches the accessor inherited from [Object.prototype], which
    replaces the prototype when [v] is an object or [null] and does nothing
    otherwise; in both cases no own property is added.  A replaced
    prototype is not tracked: the accessor is taken to stay in reach.  That
    is so unless [null] itself was assigned to ["__proto__"] before (the
    object then has no prototype, and a further assignment to
    ["__proto__"] creates an own property); on the trees of the data model
    [null] is never assigned, and the statements that depend on this key
    are made for those trees. *)
Definition obj_set (out : props) (k : jsstring) (v : value) : props :=
  if str_eqb k key_proto then out else obj_define out k v.

(** [Object.keys(o)] for a plain object. *)
Definition Object_keys (o : props) : list jsstring := map fst o.

(** The entries [(ToString(i), l[i])] of an array, starting at index [i]. *)
Fixpoint array_entries (i : N) (l : list value) : props :=
  match l with
  | [] => []
  | v :: l' => (decimal_of_N i, v) :: array_entries (N.succ i) l'
  end.

(** [Object.entries(v)] for an object or an array. *)
Definition Object_entries (v : value) : props :=
  match v with
  | VObject o => o
  | VArray l => array_entries 0 l
  | _ => []
  end.

(** The elements of an array. *)
Definition array_elements (v : value) : list value :=
  match v with
  | VArray l => l
  | _ => []
  end.

(** [v.k] for a value that is not [null] or [undefined], on own
    properties of plain objects. *)
Definition member (v : value) (k : jsstring) : value :=
  match v with
  | VObject o => prop o k
  | _ => VUndefined
  end.

(* ================================================================== *)
(** ** The normalizer *)

(** The test of the second loop:
    [k === '_attributes' || k === '_text' || k === '_declaration']. *)
Definition is_sentinel (k : jsstring) : bool :=
  str_eqb k key_attributes || str_eqb k key_text || str_eqb k key_declaration.

(** [prefixAttr ? `_${k}` : k]. *)
Definition attr_key (prefixAttr : bool) (k : jsstring) : jsstring :=
  if prefixAttr then js "_" ++ k else k.

(** The first loop: [for (const [k, v] of Object.entries(node._attributes))
    out[key] = v], run on [out], when [node._attributes] is an object. *)
Definition merge_attributes (prefixAttr : bool) (attrs : value) (out : props)
  : props :=
  if is_object_like attrs
  then fold_left (fun out kv => obj_set out (attr_key prefixAttr (fst kv)) (snd kv))
                 (Object_entries attrs) out
  else out.

(** [keys.length === 1 && keys[0] === '_text']. *)
Definition only_text (keys : list jsstring) : bool :=
  match keys with
  | [k] => str_eqb k key_text
  | _ => false
  end.

(** [normalizeXmlJs(node, { prefixAttr })]. *)
Fixpoint normalizeXmlJs (prefixAttr : bool) (node : value) : value :=
  match node with
  | VArray l => VArray (map (normalizeXmlJs prefixAttr) l)
  | VObject o =>
      if only_text (Object_keys o) then prop o key_text
      else
        VObject
          (fold_left
             (fun out kv =>
                if is_sentinel (fst kv) then out
                else obj_set out (fst kv) (normalizeXmlJs prefixAttr (snd kv)))
             o
             (merge_attributes prefixAttr (prop o key_attributes) []))
  | _ => node
  end.

(** The call [normalizeXmlJs(node)]: the option defaults to [true]. *)
Definition normalizeXmlJs_default (node : value) : value :=
  normalizeXmlJs true node.

(* ================================================================== *)
(** ** [String.prototype.trim] *)

(** WhiteSpace and LineTerminator code units: TAB, LF, VT, FF, CR, SP,
    NBSP, U+1680, U+2000..U+200A, LS, PS, U+202F, U+205F, U+3000, BOM. *)
Definition is_white_space (c : code_unit) : bool :=
  ((9 <=? c) && (c <=? 13)) || (c =? 32) || (c =? 160) || (c =? 5760)
  || ((8192 <=? c) && (c <=? 8202)) || (c =? 8232) || (c =? 8233)
  || (c =? 8239) || (c =? 8287) || (c =? 12288) || (c =? 65279).

Fixpoint trim_start (s : jsstring) : jsstring :=
  match s with
  | [] => []
  | c :: s' => if is_white_space c then trim_start s' else s
  end.

Definition trim_end (s : jsstring) : jsstring := rev (trim_start (rev s)).

Definition trim (s : jsstring) : jsstring := trim_end (trim_start s).

(* ================================================================== *)
(** ** [JSON.stringify] *)

Definition hex_digit (d : N) : code_unit :=
  if d <? 10 then 48 + d else 87 + d.

(** UnicodeEscape: a backslash, [u] and four lowercase hexadecimal digits. *)
Definition unicode_escape (c : code_unit) : jsstring :=
  [92; 117; hex_digit ((c / 4096) mod 16); hex_digit ((c / 256) mod 16);
   hex_digit ((c / 16) mod 16); hex_digit (c mod 16)].

Definition is_high_surrogate (c : code_unit) : bool :=
  (55296 <=? c) && (c <=? 56319).

Definition is_low_surrogate (c : code_unit) : bool :=
  (56320 <=? c) && (c <=? 57343).

(** One code unit that is not a surrogate, as QuoteJSONString writes it. *)
Definition quote_unit (c : code_unit) : jsstring :=
  if c =? 8 then [92; 98]
  else if c =? 9 then [92; 116]
  else if c =? 10 then [92; 110]
  else if c =? 12 then [92; 102]
  else if c =? 13 then [92; 114]
  else if c =? 34 then [92; 34]
  else if c =? 92 then [92; 92]
  else if c <? 32 then unicode_escape c
  else [c].

(** A surrogate pair is copied; a lone surrogate is escaped. *)
Fixpoint quote_body (s : jsstring) : jsstring :=
  match s with
  | [] => []
  | c :: s' =>
      if is_high_surrogate c then
        match s' with
        | d :: s'' =>
            if is_low_surrogate d then c :: d :: quote_body s''
            else unicode_escape c ++ quote_body s'
        | [] => unicode_escape c
        end
      else if is_low_surrogate c then unicode_escape c ++ quote_body s'
      else quote_unit c ++ quote_body s'
  end.

Definition QuoteJSONString (s : jsstring) : jsstring :=
  34 :: quote_body s ++ [34].

Fixpoint join (sep : jsstring) (parts : list jsstring) : jsstring :=
  match parts with
  | [] => []
  | [p] => p
  | p :: ps => p ++ sep ++ join sep ps
  end.

(** The closing steps of SerializeJSONObject and SerializeJSONArray. *)
Definition wrap_partial (opening closing : code_unit)
  (gap stepback indent : jsstring) (partial : list jsstring) : jsstring :=
  match partial with
  | [] => [opening; closing]
  | _ =>
      match gap with
      | [] => opening :: join [44] partial ++ [closing]
      | _ => opening :: 10 :: indent ++ join (44 :: 10 :: indent) partial
               ++ 10 :: stepback ++ [closing]
      end
  end.

Definition is_finite (x : spec_float) : bool :=
  match x with
  | S754_zero _ | S754_finite _ _ _ => true
  | _ => false
  end.

Inductive outcome (A : Type) : Type :=
| Returns (a : A)
| Throws (e : value).
Arguments Returns {A} a.
Arguments Throws {A} e.

(** The state of the App component. *)
Record state : Type := mkState {
  xml : jsstring;
  json : value;
  error : value;
  pretty : bool
}.

Definition setJson (st : state) (v : value) : state :=
  mkState (xml st) v (error st) (pretty st).

Definition setError (st : state) (v : value) : state :=
  mkState (xml st) (json st) v (pretty st).

(** [e?.message]. *)
Definition optional_message (e : value) : value :=
  match e with
  | VUndefined | VNull => VUndefined
  | _ => member e (js "message")
  end.

(** [a || b]. *)
Definition js_or (a b : value) : value := if truthy a then a else b.

Section Runtime.

(** Number::toString of the engine, for finite numbers. *)
Variable Number_toString : spec_float -> jsstring.

(** SerializeJSONProperty; [None] is the result [undefined]. *)
Fixpoint SerializeJSONProperty (gap indent : jsstring) (v : value)
  : option jsstring :=
  match v with
  | VUndefined => None
  | VNull => Some (js "null")
  | VBool true => Some (js "true")
  | VBool false => Some (js "false")
  | VNumber x => Some (if is_finite x then Number_toString x else js "null")
  | VString s => Some (QuoteJSONString s)
  | VArray l =>
      Some (wrap_partial 91 93 gap indent (indent ++ gap)
              (map (fun e =>
                      match SerializeJSONProperty gap (indent ++ gap) e with
                      | Some str => str
                      | None => js "null"
                      end) l))
  | VObject o =>
      Some (wrap_partial 123 125 gap indent (indent ++ gap)
              (flat_map
                 (fun kv =>
                    match SerializeJSONProperty gap (indent ++ gap) (snd kv) with
                    | Some str =>
                        [QuoteJSONString (fst kv) ++ 58 ::
                           match gap with [] => [] | _ => [32] end ++ str]
                    | None => []
                    end) o))
  end.

(** [JSON.stringify(v, null, space)] for a numeric [space]: the gap is
    [min(10, space)] spaces. *)
Definition JSON_stringify (v : value) (space : N) : value :=
  match SerializeJSONProperty (repeat 32 (N.to_nat (N.min 10 space))) [] v with
  | Some str => VString str
  | None => VUndefined
  end.

(** [xml2js(xml, options)] of xml-js with the options of the component:
    the compact tree, or the exception the parser throws. *)
Variable xml2js : jsstring -> outcome value.

(** [onConvert] of the component that normalizes.  The [Returns] branch is
    the run in which [normalizeXmlJs] and [JSON.stringify] complete; that
    the engine may end either of them with a RangeError on a tree too deep
    for its call stack (the [catch] then sets the output to the empty
    string and the error to the message of that exception) is not part of
    the model. *)
Definition onConvert (st : state) : state :=
  let st := setError st (VString []) in
  if negb (truthy (VString (trim (xml st)))) then setJson st (VString [])
  else
    match xml2js (xml st) with
    | Returns jsObj =>
        let normalized := normalizeXmlJs true jsObj in
        let result := JSON_stringify normalized (if pretty st then 2 else 0) in
        setJson st result
    | Throws e =>
        setError (setJson st (VString []))
          (js_or (optional_message e) (VString (js "Failed to convert XML")))
    end.

End Runtime.

(** The component of [src/App.jsx], which shows the output of [xml2json]. *)
Module AppJsx.
Section Runtime.

(** [xml2json(xml, options)] of xml-js; [options.spaces] follows the
    [pretty] flag. *)
Variable xml2json : jsstring -> bool -> outcome jsstring.

Definition onConvert (st : state) : state :=
  let st := setError st (VString []) in
  if negb (truthy (VString (trim (xml st)))) then setJson st (VString [])
  else
    match xml2json (xml st) (pretty st) with
    | Returns result => setJson st (VString result)
    | Throws e =>
        setError (setJson st (VString []))
          (js_or (optional_message e) (VString (js "Failed to convert XML")))
    end.

End Runtime.
End AppJsx.

(* ================================================================== *)
(** ** [JSON.parse] *)

(** JSON white space: TAB, LF, CR, SP. *)
Definition is_json_ws (c : code_unit) : bool :=
  (c =? 9) || (c =? 10) || (c =? 13) || (c =? 32).

Fixpoint skip_ws (s : jsstring) : jsstring :=
  match s with
  | [] => []
  | c :: s' => if is_json_ws c then skip_ws s' else s
  end.

Definition hex_value (c : code_unit) : option N :=
  if (48 <=? c) && (c <=? 57) then Some (c - 48)
  else if (97 <=? c) && (c <=? 102) then Some (c - 87)
  else if (65 <=? c) && (c <=? 70) then Some (c - 55)
  else None.

Definition hex4_value (a b c d : code_unit) : option code_unit :=
  match hex_value a, hex_value b, hex_value c, hex_value d with
  | Some x, Some y, Some z, Some w => Some (((x * 16 + y) * 16 + z) * 16 + w)
  | _, _, _, _ => None
  end.

(** The code unit a one-letter escape stands for. *)
Definition simple_escape (e : code_unit) : option code_unit :=
  if e =? 34 then Some 34
  else if e =? 92 then Some 92
  else if e =? 47 then Some 47
  else if e =? 98 then Some 8
  else if e =? 102 then Some 12
  else if e =? 110 then Some 10
  else if e =? 114 then Some 13
  else if e =? 116 then Some 9
  else None.

Definition cons_result (c : code_unit) (r : option (jsstring * jsstring))
  : option (jsstring * jsstring) :=
  match r with
  | Some (str, rest) => Some (c :: str, rest)
  | None => None
  end.

(** The characters of a string literal after its opening quote, up to and
    including the closing quote; the decoded string and the text left. *)
Fixpoint parse_string_body (s : jsstring) : option (jsstring * jsstring) :=
  match s with
  | [] => None
  | c :: r =>
      if c =? 34 then Some ([], r)
      else if c =? 92 then
        match r with
        | [] => None
        | e :: r1 =>
            if e =? 117 then
              match r1 with
              | h1 :: h2 :: h3 :: h4 :: r2 =>
                  match hex4_value h1 h2 h3 h4 with
                  | Some u => cons_result u (parse_string_body r2)
                  | None => None
                  end
              | _ => None
              end
            else
              match simple_escape e with
              | Some u => cons_result u (parse_string_body r1)
              | None => None
              end
        end
      else if c <? 32 then None
      else cons_result c (parse_string_body r)
  end.

Fixpoint strip_prefix (p s : jsstring) : option jsstring :=
  match p, s with
  | [], _ => Some s
  | x :: p', y :: s' => if x =? y then strip_prefix p' s' else None
  | _ :: _, [] => None
  end.

Fixpoint span_digits (s : jsstring) : jsstring * jsstring :=
  match s with
  | c :: s' =>
      if is_digit c then let (ds, rest) := span_digits s' in (c :: ds, rest)
      else ([], s)
  | [] => ([], [])
  end.

(** The longest prefix of [s] that is a JSON number, and the text left. *)
Definition lex_number (s : jsstring) : option (jsstring * jsstring) :=
  let (sign, s1) :=
    match s with
    | c :: r => if c =? 45 then ([45], r) else ([], s)
    | [] => ([], s)
    end in
  let int_part :=
    match s1 with
    | c :: r =>
        if c =? 48 then Some ([48], r)
        else if is_digit c then Some (span_digits s1)
        else None
    | [] => None
    end in
  match int_part with
  | None => None
  | Some (int, s2) =>
      let (frac, s3) :=
        match s2 with
        | c :: r =>
            if c =? 46 then
              match span_digits r with
              | ([], _) => ([], s2)
              | (ds, rest) => (46 :: ds, rest)
              end
            else ([], s2)
        | [] => ([], s2)
        end in
      let (exp, s4) :=
        match s3 with
        | c :: r =>
            if (c =? 101) || (c =? 69) then
              let (esign, r1) :=
                match r with
                | d :: r' => if (d =? 43) || (d =? 45) then ([d], r') else ([], r)
                | [] => ([], r)
                end in
              match span_digits r1 with
              | ([], _) => ([], s3)
              | (ds, rest) => (c :: esign ++ ds, rest)
              end
            else ([], s3)
        | [] => ([], s3)
        end in
      Some (sign ++ int ++ frac ++ exp, s4)
  end.

Definition define_all (members : props) : props :=
  fold_left (fun o kv => obj_define o (fst kv) (snd kv)) members [].

Section Parse.

(** StringToNumber of the engine, on a JSON number literal. *)
Variable StringToNumber : jsstring -> spec_float.

(** One JSON value at the head of [s], after white space; the value and
    the text that follows it.  [None] is a SyntaxError (or no fuel). *)
Fixpoint parse_value (fuel : nat) (s : jsstring) : option (value * jsstring) :=
  match fuel with
  | O => None
  | S fuel' =>
      match skip_ws s with
      | [] => None
      | c :: r =>
          if c =? 34 then
            match parse_string_body r with
            | Some (str, rest) => Some (VString str, rest)
            | None => None
            end
          else if c =? 91 then
            match skip_ws r with
            | d :: r' =>
                if d =? 93 then Some (VArray [], r')
                else
                  match parse_elements fuel' r with
                  | Some (vs, rest) => Some (VArray vs, rest)
                  | None => None
                  end
            | [] => None
            end
          else if c =? 123 then
            match skip_ws r with
            | d :: r' =>
                if d =? 125 then Some (VObject [], r')
                else
                  match parse_members fuel' r with
                  | Some (ms, rest) => Some (VObject (define_all ms), rest)
                  | None => None
                  end
            | [] => None
            end
          else if c =? 116 then
            match strip_prefix (js "true") (c :: r) with
            | Some rest => Some (VBool true, rest)
            | None => None
            end
          else if c =? 102 then
            match strip_prefix (js "false") (c :: r) with
            | Some rest => Some (VBool false, rest)
            | None => None
            end
          else if c =? 110 then
            match strip_prefix (js "null") (c :: r) with
            | Some rest => Some (VNull, rest)
            | None => None
            end
          else
            match lex_number (c :: r) with
            | Some (lit, rest) => Some (VNumber (StringToNumber lit), rest)
            | None => None
            end
      end
  end

(** The elements of an array after its opening bracket, up to and
    including the closing bracket. *)
with parse_elements (fuel : nat) (s : jsstring)
  : option (list value * jsstring) :=
  match fuel with
  | O => None
  | S fuel' =>
      match parse_value fuel' s with
      | Some (v, r) =>
          match skip_ws r with
          | d :: r' =>
              if d =? 93 then Some ([v], r')
              else if d =? 44 then
                match parse_elements fuel' r' with
                | Some (vs, rest) => Some (v :: vs, rest)
                | None => None
                end
              else None
          | [] => None
          end
      | None => None
      end
  end

(** The members of an object after its opening brace, up to and including
    the closing brace, in source order. *)
with parse_members (fuel : nat) (s : jsstring) : option (props * jsstring) :=
  match fuel with
  | O => None
  | S fuel' =>
      match skip_ws s with
      | q :: r =>
          if q =? 34 then
            match parse_string_body r with
            | Some (k, r1) =>
                match skip_ws r1 with
                | colon :: r2 =>
                    if colon =? 58 then
                      match parse_value fuel' r2 with
                      | Some (v, r3) =>
                          match skip_ws r3 with
                          | d :: r4 =>
                              if d =? 125 then Some ([(k, v)], r4)
                              else if d =? 44 then
                                match parse_members fuel' r4 with
                                | Some (ms, rest) => Some ((k, v) :: ms, rest)
                                | None => None
                                end
                              else None
                          | [] => None
                          end
                      | None => None
                      end
                    else None
                | [] => None
                end
            | None => None
            end
          else None
      | [] => None
      end
  end.

(** [JSON.parse(text)] without a reviver; [None] is a SyntaxError.  Each
    call of the parser above is made after at least one code unit was
    read or directly under a call that read one, so twice the length of
    the text bounds the depth of calls. *)
Definition JSON_parse (text : jsstring) : option value :=
  match parse_value (2 * List.length text + 2)%nat text with
  | Some (v, rest) =>
      match skip_ws rest with
      | [] => Some v
      | _ :: _ => None
      end
  | None => None
  end.

End Parse.

(* ================================================================== *)
(** ** Vocabulary of the statements *)

(** The body of the second loop of [normalizeXmlJs]. *)
Definition child_step (prefixAttr : bool) (out : props) (kv : jsstring * value)
  : props :=
  if is_sentinel (fst kv) then out
  else obj_set out (fst kv) (normalizeXmlJs prefixAttr (snd kv)).

(** An object without its property [k]. *)
Definition without_key (k : jsstring) (o : props) : props :=
  filter (fun kv => negb (str_eqb (fst kv) k)) o.

(** The state [onConvert] leaves when it clears the output and reports
    [message]. *)
Definition failed (st : state) (message : value) : state :=
  mkState (xml st) (VString []) message (pretty st).

Definition fallback_message : value := VString (js "Failed to convert XML").

(** An exception whose message is the empty string, and a state whose
    input is not blank. *)
Definition silent_exception : value := VObject [(js "message", VString [])].

Definition unclosed_input : state :=
  mkState (js "<a><b></a>") (VString (js "{}")) (VString []) true.

(** The message of xml-js on that input: four lines, the last one
    [Char: >]. *)
Definition close_tag_message : jsstring :=
  js "Unexpected close tag" ++ [10] ++ js "Line: 0" ++ [10]
    ++ js "Column: 10" ++ [10] ++ js "Char: >".

(** The exception of the parser on that input, by its message. *)
Definition close_tag_exception : value :=
  VObject [(js "message", VString close_tag_message)].

(** An input of white space only, over the output and the error of an
    earlier conversion. *)
Definition blank_input : state :=
  mkState [32; 9; 10; 13; 160] (VString (js "{}"))
    (VString (js "old error")) true.

Definition is_string (v : value) : bool :=
  match v with VString _ => true | _ => false end.

(** A mapping from strings to strings, as the attributes of an element. *)
Definition string_map (v : value) : bool :=
  match v with
  | VObject a => forallb (fun kv => is_string (snd kv)) a
  | _ => false
  end.

(** The trees of the data model: a scalar is a string; an element has an
    attribute mapping under [_attributes], a string under [_text], a
    declaration marker under [_declaration], and under every other key a
    child node or a sequence of child nodes. *)
Fixpoint GenericNode (v : value) : bool :=
  match v with
  | VString _ => true
  | VArray l => forallb GenericNode l
  | VObject o =>
      forallb
        (fun kv =>
           if str_eqb (fst kv) key_attributes then string_map (snd kv)
           else if str_eqb (fst kv) key_text then is_string (snd kv)
           else if str_eqb (fst kv) key_declaration then true
           else GenericNode (snd kv)) o
  | _ => false
  end.

(** No key of [v], at any depth, is one of the three reserved keys. *)
Fixpoint sentinel_free (v : value) : bool :=
  match v with
  | VArray l => forallb sentinel_free l
  | VObject o =>
      forallb (fun kv => negb (is_sentinel (fst kv)) && sentinel_free (snd kv)) o
  | _ => true
  end.

(** No attribute of the tree is written under a reserved key: with the
    prefix, no attribute is named [attributes], [text] or [declaration]. *)
Fixpoint plain_attribute_keys (prefixAttr : bool) (v : value) : bool :=
  match v with
  | VArray l => forallb (plain_attribute_keys prefixAttr) l
  | VObject o =>
      forallb
        (fun kv =>
           if str_eqb (fst kv) key_attributes then
             forallb (fun a => negb (is_sentinel (attr_key prefixAttr (fst a))))
                     (Object_entries (snd kv))
           else if is_sentinel (fst kv) then true
           else plain_attribute_keys prefixAttr (snd kv)) o
  | _ => true
  end.

(** The key [k] may come after the key [e] when an object is enumerated. *)
Definition may_follow (e k : jsstring) : Prop :=
  e <> k /\ enumerates_before k e = false.

(** The keys of an object in enumeration order: distinct, array indices
    first and ascending. *)
Definition enumerated (ks : list jsstring) : Prop :=
  ForallOrdPairs may_follow ks.

(** Values as assignments build them: every object is enumerated in order
    and has no own property ["__proto__"]. *)
Unset Elimination Schemes.
Inductive built : value -> Prop :=
| built_scalar v :
    Array_isArray v = false -> is_object_like v = false -> built v
| built_array l : Forall built l -> built (VArray l)
| built_object o :
    enumerated (Object_keys o) ->
    ~ In key_proto (Object_keys o) ->
    Forall (fun kv => built (snd kv)) o ->
    built (VObject o).
Set Elimination Schemes.

(** The object under construction in [normalizeXmlJs]: enumerated in
    order, without a property ["__proto__"], holding built values. *)
Definition under_construction (out : props) : Prop :=
  enumerated (Object_keys out)
  /\ ~ In key_proto (Object_keys out)
  /\ Forall (fun kv => built (snd kv)) out.

(** The element of [<a text="x"/>]. *)
Definition text_attribute_element : value :=
  VObject [(key_attributes, VObject [(js "text", VString (js "x"))])].

(** The values of the output data model: strings, objects and arrays. *)
Fixpoint NormalizedValue (v : value) : bool :=
  match v with
  | VString _ => true
  | VArray l => forallb NormalizedValue l
  | VObject o => forallb (fun kv => NormalizedValue (snd kv)) o
  | _ => false
  end.

(** The value [JSON.parse] builds from the text of [v]: every object is
    built again, property by property. *)
Fixpoint reparsed (v : value) : value :=
  match v with
  | VArray l => VArray (map reparsed l)
  | VObject o =>
      VObject (define_all (map (fun kv => (fst kv, reparsed (snd kv))) o))
  | _ => v
  end.

(** The number of values in [v], counting an element or a member twice. *)
Fixpoint size (v : value) : nat :=
  match v with
  | VArray l => S (fold_right (fun e n => S (size e) + n)%nat O l)
  | VObject o => S (fold_right (fun kv n => S (size (snd kv)) + n)%nat O o)
  | _ => 1%nat
  end.

(** The line break and indentation written when there is a gap. *)
Definition lead (gap indent : jsstring) : jsstring :=
  match gap with
  | [] => []
  | _ => 10 :: indent
  end.

Section TextOfValues.

Variable Number_toString : spec_float -> jsstring.
Variable StringToNumber : jsstring -> spec_float.

(** The text [JSON.stringify] writes for an array element. *)
Definition element_text (gap indent : jsstring) (e : value) : jsstring :=
  match SerializeJSONProperty Number_toString gap indent e with
  | Some str => str
  | None => js "null"
  end.

(** The text it writes for an object member. *)
Definition member_text (gap indent : jsstring) (kv : jsstring * value)
  : jsstring :=
  QuoteJSONString (fst kv) ++ 58 :: match gap with [] => [] | _ => [32] end
    ++ element_text gap indent (snd kv).

(** The parser reads the text of [v] back, whatever follows it. *)
Definition reads_back (gap indent : jsstring) (v : value) : Prop :=
  forall (fuel : nat) (rest : jsstring),
    (size v <= fuel)%nat ->
    parse_value StringToNumber fuel (element_text gap indent v ++ rest)
    = Some (reparsed v, rest).

End TextOfValues.

(** A document with an attribute, repeated siblings and an empty element,
    normalized. *)
Definition sample_output : value :=
  VObject [(js "a", VObject [(js "_id", VString (js "1"));
                             (js "b", VArray [VString (js "1"); VString (js "2")]);
                             (js "c", VObject [])])].

(** The keys [ks] are pairwise different. *)
Fixpoint distinct (ks : list jsstring) : bool :=
  match ks with
  | [] => true
  | k :: ks' => negb (existsb (str_eqb k) ks') && distinct ks'
  end.

(** A key that an assignment creates at the end of the enumeration: not an
    array index and not ["__proto__"]. *)
Definition ordinary_key (k : jsstring) : bool :=
  match array_index k with
  | Some _ => false
  | None => negb (str_eqb k key_proto)
  end.

(** The attributes the first loop of [normalizeXmlJs] goes through. *)
Definition attribute_entries (o : props) : props :=
  if is_object_like (prop o key_attributes)
  then Object_entries (prop o key_attributes)
  else [].

(** The entries the second loop does not skip. *)
Definition child_entries (o : props) : props :=
  filter (fun kv => negb (is_sentinel (fst kv))) o.

(** The assignments of the two loops, in the order they are made. *)
Definition assigned (prefixAttr : bool) (o : props) : props :=
  map (fun kv => (attr_key prefixAttr (fst kv), snd kv)) (attribute_entries o)
  ++ map (fun kv => (fst kv, normalizeXmlJs prefixAttr (snd kv)))
       (child_entries o).

(** No element the normalizer visits has the key [_attributes]. *)
Fixpoint attribute_free (v : value) : bool :=
  match v with
  | VArray l => forallb attribute_free l
  | VObject o =>
      forallb
        (fun kv =>
           if str_eqb (fst kv) key_attributes then false
           else if is_sentinel (fst kv) then true
           else attribute_free (snd kv)) o
  | _ => true
  end.

(** The element of [<a id="1"><b>x</b><c/></a>] and its parts. *)
Definition sample_attributes : props := [(js "id", VString (js "1"))].

Definition sample_element : props :=
  [(key_attributes, VObject sample_attributes);
   (js "b", VObject [(key_text, VString (js "x"))]);
   (js "c", VObject [])].

(* ================================================================== *)
(** ** The App component around [onConvert] *)

Definition setXml (st : state) (v : jsstring) : state :=
  mkState v (json st) (error st) (pretty st).

Definition setPretty (st : state) (b : bool) : state :=
  mkState (xml st) (json st) (error st) b.

(** [disabled={!json}] of the Copy and Download buttons. *)
Definition buttons_disabled (st : state) : bool := negb (truthy (json st)).

(** [{error && <div className="error">{error}</div>}]. *)
Definition error_shown (st : state) : bool := truthy (error st).

(** The component that normalizes, between two events: its state, the
    drag flag, and the value of [pretty] in the closure of the [onConvert]
    that the Convert button holds.  [useCallback(..., [xml, options])]
    makes a new [onConvert] only in a render in which [xml] differs from
    the render before ([options] never changes), so that value is the
    [pretty] of the last such render. *)
Record App : Type := mkApp {
  view : state;
  isDragOver : bool;
  convert_pretty : bool
}.

(** The first render: [useState('')] three times, [useState(true)],
    [useState(false)]. *)
Definition initial_app : App :=
  mkApp (mkState [] (VString []) (VString []) true) false true.

(** The render after a handler that started from the input [old_xml]. *)
Definition rerender (old_xml : jsstring) (a : App) : App :=
  if str_eqb (xml (view a)) old_xml then a
  else mkApp (view a) (isDragOver a) (pretty (view a)).

(** [onChange={(e) => setXml(e.target.value)}] of the text area. *)
Definition change_input (value : jsstring) (a : App) : App :=
  rerender (xml (view a))
    (mkApp (setXml (view a) value) (isDragOver a) (convert_pretty a)).

(** [onChange={(e) => setPretty(e.target.checked)}] of the check box. *)
Definition change_pretty (checked : bool) (a : App) : App :=
  mkApp (setPretty (view a) checked) (isDragOver a) (convert_pretty a).

(** [onClick={() => { setXml(''); setJson(''); setError('') }}]. *)
Definition click_Clear (a : App) : App :=
  rerender (xml (view a))
    (mkApp (mkState [] (VString []) (VString []) (pretty (view a)))
       (isDragOver a) (convert_pretty a)).

(** [onFileChange(file)], once [file.text()] has resolved; a file is
    given by its text, [None] is no file. *)
Definition onFileChange (file : option jsstring) (a : App) : App :=
  match file with
  | None => a
  | Some text => change_input text a
  end.

(** [onDrop(e)] with [file = e.dataTransfer?.files?.[0]]. *)
Definition onDrop (file : option jsstring) (a : App) : App :=
  let a' := onFileChange file a in
  mkApp (view a') false (convert_pretty a').

(** [onDragOver(e)]. *)
Definition onDragOver (a : App) : App :=
  if negb (isDragOver a) then mkApp (view a) true (convert_pretty a) else a.

(** [onDragLeave(e)]. *)
Definition onDragLeave (a : App) : App :=
  mkApp (view a) false (convert_pretty a).

Inductive event : Type :=
| Input (value : jsstring)
| Pretty (checked : bool)
| Convert
| Clear
| FileChosen (file : option jsstring)
| Drop (file : option jsstring)
| DragOver
| DragLeave.

Section Component.

Variable Number_toString : spec_float -> jsstring.
Variable xml2js : jsstring -> outcome value.

(** [onClick={onConvert}]: the [onConvert] of the button runs with the
    [pretty] of its closure; the flag of the state stays as it is. *)
Definition click_Convert (a : App) : App :=
  mkApp
    (setPretty
       (onConvert Number_toString xml2js (setPretty (view a) (convert_pretty a)))
       (pretty (view a)))
    (isDragOver a) (convert_pretty a).

Definition handle (a : App) (e : event) : App :=
  match e with
  | Input value => change_input value a
  | Pretty checked => change_pretty checked a
  | Convert => click_Convert a
  | Clear => click_Clear a
  | FileChosen file => onFileChange file a
  | Drop file => onDrop file a
  | DragOver => onDragOver a
  | DragLeave => onDragLeave a
  end.

(** The component after a sequence of events, from its first render. *)
Definition run (events : list event) : App :=
  fold_left handle events initial_app.

End Component.

(** A parser that reads every text as the empty element [<a/>], and one
    that rejects every text as it rejects [<a><b></a>]. *)
Definition accepting_parser (_ : jsstring) : outcome value :=
  Returns (VObject [(js "a", VObject [])]).

Definition rejecting_parser (_ : jsstring) : outcome value :=
  Throws close_tag_exception.

(* ================================================================== *)
(** * Properties *)

(** ** The built-ins on small inputs *)

Example array_index_examples :
  array_index (js "10") = Some 10
  /\ array_index (js "01") = None
  /\ array_index (js "") = None
  /\ array_index (js "4294967294") = Some 4294967294
  /\ array_index (js "4294967295") = None
  /\ array_index (js "_1") = None.
Proof. repeat split. Qed.

(** Array indices are enumerated first and by value, other keys in the
    order of their creation; an overwritten key keeps its place. *)
Example assignment_order :
  Object_keys
    (obj_set (obj_set (obj_set (obj_set (obj_set [] (js "b") VNull)
                                  (js "2") VNull) (js "a") VNull)
                (js "1") VNull) (js "b") (VBool true))
  = [js "1"; js "2"; js "b"; js "a"].
Proof. reflexivity. Qed.

Example trim_example : trim (js "  <a/> ") = js "<a/>".
Proof. reflexivity. Qed.

(** The two layouts of [{"a":["1",{}]}]. *)
Example stringify_compact :
  JSON_stringify (fun _ => [])
    (VObject [(js "a", VArray [VString (js "1"); VObject []])]) 0
  = VString ([123; 34] ++ js "a" ++ [34; 58; 91; 34] ++ js "1"
               ++ [34; 44; 123; 125; 93; 125]).
Proof. reflexivity. Qed.

Example stringify_indented :
  JSON_stringify (fun _ => [])
    (VObject [(js "a", VArray [VString (js "1"); VObject []])]) 2
  = VString ([123; 10] ++ js "  " ++ [34] ++ js "a" ++ [34; 58; 32; 91; 10]
               ++ js "    " ++ [34] ++ js "1" ++ [34; 44; 10]
               ++ js "    {}" ++ [10] ++ js "  ]" ++ [10; 125]).
Proof. reflexivity. Qed.

Example parse_examples :
  JSON_parse (fun _ => S754_nan) (js " { } ") = Some (VObject [])
  /\ JSON_parse (fun _ => S754_nan) (js "[true, null, [false]]")
     = Some (VArray [VBool true; VNull; VArray [VBool false]])
  /\ JSON_parse (fun _ => S754_nan) (js "[true,") = None
  /\ JSON_parse (fun _ => S754_nan) (js "[01]") = None
  /\ JSON_parse (fun _ => S754_nan) (js "{} x") = None.
Proof. repeat split. Qed.

(** ** Strings and keys *)

Lemma str_eqb_eq (a b : jsstring) : str_eqb a b = true <-> a = b.
Proof.
  revert b; induction a as [|x a IH]; intros [|y b]; simpl;
    try (split; [discriminate | discriminate]); try tauto.
  rewrite andb_true_iff, N.eqb_eq, IH.
  split; [intros [-> ->]; reflexivity | intros H; injection H; auto].
Qed.

Lemma str_eqb_refl (a : jsstring) : str_eqb a a = true.
Proof. apply str_eqb_eq; reflexivity. Qed.

Lemma str_eqb_neq (a b : jsstring) : str_eqb a b = false <-> a <> b.
Proof.
  rewrite <- str_eqb_eq. destruct (str_eqb a b); split; congruence.
Qed.

Lemma str_eqb_sym (a b : jsstring) : str_eqb a b = str_eqb b a.
Proof.
  destruct (str_eqb a b) eqn:E.
  - apply str_eqb_eq in E; subst; symmetry; apply str_eqb_refl.
  - symmetry; apply str_eqb_neq; apply str_eqb_neq in E; congruence.
Qed.

(** ** The normalizer, in the shape of its source *)

Lemma normalizeXmlJs_eq (prefixAttr : bool) (node : value) :
  normalizeXmlJs prefixAttr node =
    if Array_isArray node then
      VArray (map (normalizeXmlJs prefixAttr) (array_elements node))
    else if is_object_like node then
      if only_text (map fst (Object_entries node)) then member node key_text
      else
        VObject (fold_left (child_step prefixAttr) (Object_entries node)
                   (merge_attributes prefixAttr (member node key_attributes) []))
    else node.
Proof.
  destruct node as [| |b|x|s|l|o]; try reflexivity.
  - destruct b; reflexivity.
  - destruct x; reflexivity.
  - unfold is_object_like; simpl. destruct (str_eqb s []); reflexivity.
Qed.

Lemma normalizeXmlJs_object (prefixAttr : bool) (o : props) :
  only_text (Object_keys o) = false ->
  normalizeXmlJs prefixAttr (VObject o) =
    VObject (fold_left (child_step prefixAttr) o
               (merge_attributes prefixAttr (prop o key_attributes) [])).
Proof. intros H; simpl; rewrite H; reflexivity. Qed.

(** ** Scalars, sequences and pure text leaves *)

(** C10: a value that is neither an array nor a non-null object (a string,
    a number, a boolean, [null], [undefined]) is returned unchanged. *)
Theorem normalize_passes_scalars (prefixAttr : bool) (node : value) :
  Array_isArray node = false ->
  is_object_like node = false ->
  normalizeXmlJs prefixAttr node = node.
Proof.
  intros Harr Hobj. rewrite normalizeXmlJs_eq, Harr, Hobj. reflexivity.
Qed.

Lemma normalize_passes_scalars_witness :
  normalizeXmlJs true (VString (js "hello")) = VString (js "hello")
  /\ normalizeXmlJs true VNull = VNull
  /\ normalizeXmlJs false VUndefined = VUndefined
  /\ normalizeXmlJs false (VBool false) = VBool false
  /\ normalizeXmlJs true (VNumber (S754_zero false)) = VNumber (S754_zero false).
Proof.
  exact (conj (normalize_passes_scalars true (VString (js "hello")) eq_refl eq_refl)
        (conj (normalize_passes_scalars true VNull eq_refl eq_refl)
        (conj (normalize_passes_scalars false VUndefined eq_refl eq_refl)
        (conj (normalize_passes_scalars false (VBool false) eq_refl eq_refl)
              (normalize_passes_scalars true (VNumber (S754_zero false))
                 eq_refl eq_refl))))).
Defined.

(** C1: an element whose only field is its text normalizes to that text
    itself; the leaf of [<a>hello</a>] becomes the string "hello". *)
Theorem normalize_text_leaf :
  (forall (prefixAttr : bool) (text : value),
      normalizeXmlJs prefixAttr (VObject [(key_text, text)]) = text)
  /\ (forall prefixAttr : bool,
         normalizeXmlJs prefixAttr
           (VObject [(js "a", VObject [(key_text, VString (js "hello"))])])
         = VObject [(js "a", VString (js "hello"))]).
Proof.
  split; intros; reflexivity.
Qed.

(** C4: a sequence is normalized element by element: the result is an array
    of the same length whose i-th element is the normalized i-th element;
    the parent of [<a>1</a><a>2</a>] gets the array ["1", "2"]. *)
Theorem normalize_sequence :
  (forall (prefixAttr : bool) (l : list value),
      normalizeXmlJs prefixAttr (VArray l)
      = VArray (map (normalizeXmlJs prefixAttr) l)
      /\ List.length (array_elements (normalizeXmlJs prefixAttr (VArray l)))
         = List.length l
      /\ forall i : nat,
          nth_error (array_elements (normalizeXmlJs prefixAttr (VArray l))) i
          = option_map (normalizeXmlJs prefixAttr) (nth_error l i))
  /\ normalizeXmlJs true
       (VObject [(js "a", VArray [VObject [(key_text, VString (js "1"))];
                                   VObject [(key_text, VString (js "2"))]])])
     = VObject [(js "a", VArray [VString (js "1"); VString (js "2")])].
Proof.
  split; [|reflexivity].
  intros p l. simpl. repeat split.
  - apply length_map.
  - intros i. apply nth_error_map.
Qed.

(** ** Own properties *)

Lemma obj_get_replace_same (o : props) (k : jsstring) (v : value) :
  has_key k o = true -> obj_get (obj_replace o k v) k = Some v.
Proof.
  induction o as [|[k' v'] o IH]; simpl; [discriminate|].
  destruct (str_eqb k k') eqn:E; simpl; rewrite E; auto.
Qed.

Lemma obj_get_replace_other (o : props) (k k' : jsstring) (v : value) :
  k' <> k -> obj_get (obj_replace o k v) k' = obj_get o k'.
Proof.
  intros Hne. induction o as [|[k0 v0] o IH]; simpl; [reflexivity|].
  destruct (str_eqb k k0) eqn:E; simpl.
  - apply str_eqb_eq in E; subst k0.
    apply str_eqb_neq in Hne; rewrite Hne; reflexivity.
  - rewrite IH; reflexivity.
Qed.

Lemma obj_get_insert_same (o : props) (k : jsstring) (v : value) :
  has_key k o = false -> obj_get (obj_insert o k v) k = Some v.
Proof.
  induction o as [|[k' v'] o IH]; simpl.
  - rewrite str_eqb_refl; reflexivity.
  - intros H. apply orb_false_iff in H as [E H].
    destruct (enumerates_before k k'); simpl.
    + rewrite str_eqb_refl; reflexivity.
    + rewrite E; auto.
Qed.

Lemma obj_get_insert_other (o : props) (k k' : jsstring) (v : value) :
  k' <> k -> obj_get (obj_insert o k v) k' = obj_get o k'.
Proof.
  intros Hne. apply str_eqb_neq in Hne.
  induction o as [|[k0 v0] o IH]; simpl.
  - rewrite Hne; reflexivity.
  - destruct (enumerates_before k k0); simpl.
    + rewrite Hne; reflexivity.
    + rewrite IH; reflexivity.
Qed.

(** After [out[k] = v] with a key other than ["__proto__"], [out[k]] is
    [v] and every other property is as before. *)
Lemma obj_get_set_same (out : props) (k : jsstring) (v : value) :
  k <> key_proto -> obj_get (obj_set out k v) k = Some v.
Proof.
  intros Hk. unfold obj_set, obj_define.
  apply str_eqb_neq in Hk; rewrite Hk.
  destruct (has_key k out) eqn:E.
  - apply obj_get_replace_same; assumption.
  - apply obj_get_insert_same; assumption.
Qed.

Lemma obj_get_set_other (out : props) (k k' : jsstring) (v : value) :
  k' <> k -> obj_get (obj_set out k v) k' = obj_get out k'.
Proof.
  intros Hne. unfold obj_set, obj_define.
  destruct (str_eqb k key_proto); [reflexivity|].
  destruct (has_key k out).
  - apply obj_get_replace_other; assumption.
  - apply obj_get_insert_other; assumption.
Qed.

(** An assignment to ["__proto__"] leaves the own properties alone. *)
Lemma obj_set_proto (out : props) (v : value) : obj_set out key_proto v = out.
Proof. reflexivity. Qed.

(** ** Mixed content *)

Lemma only_text_length (o : props) :
  List.length o <> 1%nat -> only_text (Object_keys o) = false.
Proof.
  destruct o as [|kv [|kv' o]]; simpl; intros H; try reflexivity.
  exfalso; apply H; reflexivity.
Qed.

Lemma only_text_without (o : props) :
  only_text (Object_keys (without_key key_text o)) = false.
Proof.
  unfold without_key.
  destruct (filter _ o) as [|[k v] [|kv' o']] eqn:E; try reflexivity.
  assert (Hin : In (k, v) (filter (fun kv => negb (str_eqb (fst kv) key_text)) o))
    by (rewrite E; left; reflexivity).
  apply filter_In in Hin as [_ Hk]. simpl in *.
  apply negb_true_iff in Hk. exact Hk.
Qed.

Lemma obj_get_without (o : props) (k k' : jsstring) :
  k <> k' -> obj_get (without_key k' o) k = obj_get o k.
Proof.
  intros Hne. induction o as [|[k0 v0] o IH]; simpl; [reflexivity|].
  destruct (str_eqb k0 k') eqn:E; simpl.
  - apply str_eqb_eq in E; subst k0.
    apply str_eqb_neq in Hne; rewrite Hne. exact IH.
  - rewrite IH; reflexivity.
Qed.

Lemma fold_child_step_without (prefixAttr : bool) (o out : props) :
  fold_left (child_step prefixAttr) (without_key key_text o) out
  = fold_left (child_step prefixAttr) o out.
Proof.
  revert out; induction o as [|[k v] o IH]; intros out; simpl; [reflexivity|].
  destruct (str_eqb k key_text) eqn:E; simpl.
  - rewrite IH. unfold child_step at 3, is_sentinel; simpl.
    rewrite E, orb_true_r; reflexivity.
  - apply IH.
Qed.

(** C5: an element that has text next to attributes or children gets no
    key for the text: its normal form is an object, the one the element
    has once its text is taken away. *)
Theorem normalize_mixed_content_drops_text (prefixAttr : bool) (o : props) :
  has_key key_text o = true ->
  List.length o <> 1%nat ->
  normalizeXmlJs prefixAttr (VObject o)
  = normalizeXmlJs prefixAttr (VObject (without_key key_text o))
  /\ exists out, normalizeXmlJs prefixAttr (VObject o) = VObject out.
Proof.
  intros _ Hlen.
  rewrite (normalizeXmlJs_object _ o (only_text_length o Hlen)).
  rewrite (normalizeXmlJs_object _ _ (only_text_without o)).
  split; [|eexists; reflexivity].
  rewrite fold_child_step_without. unfold prop.
  rewrite obj_get_without by discriminate. reflexivity.
Qed.

Lemma normalize_mixed_content_drops_text_witness :
  normalizeXmlJs true
    (VObject [(key_attributes, VObject [(js "id", VString (js "1"))]);
              (key_text, VString (js "hello"))])
  = normalizeXmlJs true
      (VObject [(key_attributes, VObject [(js "id", VString (js "1"))])])
  /\ normalizeXmlJs true
       (VObject [(key_attributes, VObject [(js "id", VString (js "1"))]);
                 (key_text, VString (js "hello"))])
     = VObject [(js "_id", VString (js "1"))].
Proof.
  split.
  - apply (normalize_mixed_content_drops_text true
             [(key_attributes, VObject [(js "id", VString (js "1"))]);
              (key_text, VString (js "hello"))]);
      [reflexivity | simpl; lia].
  - reflexivity.
Defined.

(** ** The conversion shell *)

Lemma trim_start_blank (s : jsstring) :
  forallb is_white_space s = true -> trim_start s = [].
Proof.
  induction s as [|c s IH]; simpl; [reflexivity|].
  intros H; apply andb_true_iff in H as [Hc Hs]. rewrite Hc; auto.
Qed.

Lemma trim_blank (s : jsstring) :
  forallb is_white_space s = true -> trim s = [].
Proof.
  intros H. unfold trim, trim_end. rewrite (trim_start_blank s H). reflexivity.
Qed.

Lemma trim_start_nonblank (s : jsstring) :
  forallb is_white_space s = false ->
  exists c t, trim_start s = c :: t /\ is_white_space c = false.
Proof.
  induction s as [|c s IH]; simpl; [discriminate|].
  destruct (is_white_space c) eqn:E; simpl.
  - exact IH.
  - intros _. exists c, s. auto.
Qed.

Lemma trim_nonblank (s : jsstring) :
  forallb is_white_space s = false -> truthy (VString (trim s)) = true.
Proof.
  intros H. destruct (trim_start_nonblank s H) as (c & t & E & Hc).
  unfold trim, trim_end. rewrite E.
  assert (Hr : forallb is_white_space (rev (c :: t)) = false).
  { simpl. rewrite forallb_app. simpl. rewrite Hc. apply andb_false_r. }
  destruct (trim_start_nonblank _ Hr) as (c' & t' & E' & _).
  rewrite E'. simpl. destruct (rev t' ++ [c']) eqn:En; [|reflexivity].
  apply app_eq_nil in En as [_ En]. discriminate.
Qed.

Section Shell.

Variable Number_toString : spec_float -> jsstring.
Variable xml2js : jsstring -> outcome value.
Variable xml2json : jsstring -> bool -> outcome jsstring.

(** C6: on an input that is empty or all white space, both components
    end with the empty string as output and the empty string as error. *)
Theorem blank_input_gives_empty_output (st : state) :
  forallb is_white_space (xml st) = true ->
  onConvert Number_toString xml2js st
  = mkState (xml st) (VString []) (VString []) (pretty st)
  /\ AppJsx.onConvert xml2json st
     = mkState (xml st) (VString []) (VString []) (pretty st).
Proof.
  intros H. unfold onConvert, AppJsx.onConvert; simpl.
  rewrite (trim_blank _ H); simpl. split; reflexivity.
Qed.

(** C7: when the parser throws on an input that is not blank and the
    exception has a message, one that is not empty, the error set is that
    message itself, unchanged, and the output is cleared to the empty
    string whatever it was before; so in both components. *)
Theorem parser_message_shown_verbatim (st : state) (e : value) :
  forallb is_white_space (xml st) = false ->
  truthy (optional_message e) = true ->
  (xml2js (xml st) = Throws e ->
   onConvert Number_toString xml2js st = failed st (optional_message e))
  /\ (xml2json (xml st) (pretty st) = Throws e ->
      AppJsx.onConvert xml2json st = failed st (optional_message e)).
Proof.
  intros Hxml Hm. apply trim_nonblank in Hxml.
  unfold onConvert, AppJsx.onConvert, js_or, failed; simpl in *.
  rewrite Hxml; simpl.
  split; intros H; rewrite H; simpl; rewrite Hm; reflexivity.
Qed.

End Shell.

Lemma blank_input_gives_empty_output_witness :
  onConvert (fun _ => []) (fun _ => Throws VUndefined) blank_input
  = mkState (xml blank_input) (VString []) (VString []) true
  /\ AppJsx.onConvert (fun _ _ => Throws VUndefined) blank_input
     = mkState (xml blank_input) (VString []) (VString []) true.
Proof.
  apply (blank_input_gives_empty_output (fun _ => [])
           (fun _ => Throws VUndefined) (fun _ _ => Throws VUndefined)
           blank_input).
  reflexivity.
Defined.

Lemma parser_message_shown_verbatim_witness :
  onConvert (fun _ => []) (fun _ => Throws close_tag_exception) unclosed_input
  = failed unclosed_input (VString close_tag_message)
  /\ AppJsx.onConvert (fun _ _ => Throws close_tag_exception) unclosed_input
     = failed unclosed_input (VString close_tag_message).
Proof.
  destruct (parser_message_shown_verbatim (fun _ => [])
              (fun _ => Throws close_tag_exception)
              (fun _ _ => Throws close_tag_exception)
              unclosed_input close_tag_exception eq_refl eq_refl)
    as (H1 & H2).
  exact (conj (H1 eq_refl) (H2 eq_refl)).
Defined.

(** ** Invariants of assignment *)

Section AssignInvariant.

Variable Q : jsstring * value -> Prop.

Lemma obj_replace_Forall (o : props) (k : jsstring) (v : value) :
  Forall Q o -> Q (k, v) -> Forall Q (obj_replace o k v).
Proof.
  intros Ho Hkv. induction Ho as [|[k' v'] o Hx Ho IH]; simpl; [constructor|].
  destruct (str_eqb k k') eqn:E.
  - apply str_eqb_eq in E; subst k'. constructor; assumption.
  - constructor; assumption.
Qed.

Lemma obj_insert_Forall (o : props) (k : jsstring) (v : value) :
  Forall Q o -> Q (k, v) -> Forall Q (obj_insert o k v).
Proof.
  intros Ho Hkv. induction Ho as [|[k' v'] o Hx Ho IH]; simpl.
  - constructor; [assumption | constructor].
  - destruct (enumerates_before k k'); repeat constructor; assumption.
Qed.

Lemma obj_set_Forall (out : props) (k : jsstring) (v : value) :
  Forall Q out -> (k <> key_proto -> Q (k, v)) -> Forall Q (obj_set out k v).
Proof.
  intros Ho Hkv. unfold obj_set, obj_define.
  destruct (str_eqb k key_proto) eqn:E; [assumption|].
  apply str_eqb_neq in E.
  destruct (has_key k out);
    [apply obj_replace_Forall | apply obj_insert_Forall]; auto.
Qed.

End AssignInvariant.

Lemma obj_get_In (o : props) (k : jsstring) (v : value) :
  obj_get o k = Some v -> In (k, v) o.
Proof.
  induction o as [|[k' v'] o IH]; simpl; [discriminate|].
  destruct (str_eqb k k') eqn:E.
  - apply str_eqb_eq in E; subst k'. intros H; injection H as ->. left; reflexivity.
  - intros H; right; auto.
Qed.

Lemma obj_get_None (o : props) (k : jsstring) :
  ~ In k (Object_keys o) -> obj_get o k = None.
Proof.
  induction o as [|[k' v'] o IH]; simpl; [reflexivity|].
  intros H. destruct (str_eqb k k') eqn:E.
  - apply str_eqb_eq in E; subst k'. exfalso; apply H; left; reflexivity.
  - apply IH. intros Hin; apply H; right; exact Hin.
Qed.

Lemma has_key_false (o : props) (k : jsstring) :
  has_key k o = false <-> ~ In k (Object_keys o).
Proof.
  induction o as [|[k' v'] o IH]; simpl.
  - split; [intros _ [] | reflexivity].
  - rewrite orb_false_iff, IH, str_eqb_neq. split.
    + intros [Hne Hnin] [Heq|Hin]; [congruence | auto].
    + intros H; split; [intros ->; apply H; left; reflexivity|].
      intros Hin; apply H; right; exact Hin.
Qed.

Lemma fold_left_invariant {A B : Type} (I : A -> Prop) (f : A -> B -> A)
  (l : list B) (a : A) :
  I a -> (forall x b, In b l -> I x -> I (f x b)) -> I (fold_left f l a).
Proof.
  revert a; induction l as [|b l IH]; intros a Ha Hf; simpl; [assumption|].
  apply IH; [apply Hf; [left; reflexivity | assumption]|].
  intros x b' Hb' Hx. apply Hf; [right|]; assumption.
Qed.

Lemma forallb_In {A : Type} (f : A -> bool) (l : list A) (x : A) :
  forallb f l = true -> In x l -> f x = true.
Proof. intros H Hin. rewrite forallb_forall in H. auto. Qed.

Lemma is_sentinel_false (k : jsstring) :
  is_sentinel k = false ->
  str_eqb k key_attributes = false /\ str_eqb k key_text = false
  /\ str_eqb k key_declaration = false.
Proof.
  unfold is_sentinel. intros H.
  apply orb_false_iff in H as [H H3]. apply orb_false_iff in H as [H1 H2].
  auto.
Qed.

Lemma only_text_inv (o : props) :
  only_text (Object_keys o) = true -> exists t, o = [(key_text, t)].
Proof.
  destruct o as [|[k t] [|kv o]]; simpl; try discriminate.
  intros H; apply str_eqb_eq in H; subst k. exists t; reflexivity.
Qed.

(** What the data model says of the parts of an element. *)
Lemma GenericNode_attributes (o : props) (attrs : value) :
  GenericNode (VObject o) = true ->
  obj_get o key_attributes = Some attrs ->
  exists a, attrs = VObject a /\ forallb (fun kv => is_string (snd kv)) a = true.
Proof.
  intros HG Hget. apply obj_get_In in Hget.
  simpl in HG. pose proof (forallb_In _ _ _ HG Hget) as H.
  cbn [fst snd] in H. rewrite str_eqb_refl in H.
  destruct attrs; try discriminate. eexists; split; [reflexivity | exact H].
Qed.

Lemma GenericNode_child (o : props) (kv : jsstring * value) :
  GenericNode (VObject o) = true ->
  In kv o -> is_sentinel (fst kv) = false ->
  GenericNode (snd kv) = true.
Proof.
  intros HG Hin Hs. apply is_sentinel_false in Hs as (H1 & H2 & H3).
  simpl in HG. pose proof (forallb_In _ _ _ HG Hin) as H.
  cbn beta in H. rewrite H1, H2, H3 in H. exact H.
Qed.

Lemma is_string_sentinel_free (v : value) :
  is_string v = true -> sentinel_free v = true.
Proof. destruct v; simpl; congruence. Qed.

(** C2, as the code has it: on a tree of the data model in which no
    attribute is written under a reserved key, the normal form has none of
    the keys [_attributes], [_text], [_declaration] at any depth. *)
Theorem normalize_sentinel_free (prefixAttr : bool) (node : value) :
  GenericNode node = true ->
  plain_attribute_keys prefixAttr node = true ->
  sentinel_free (normalizeXmlJs prefixAttr node) = true.
Proof.
  induction node as [| |b|x|s|l IH|o IH] using value_induction;
    intros HG HP; try reflexivity.
  - simpl in *. apply forallb_forall. intros y Hy.
    apply in_map_iff in Hy as (x & <- & Hx).
    rewrite Forall_forall in IH.
    apply IH; [assumption | apply (forallb_In _ _ _ HG Hx)
              | apply (forallb_In _ _ _ HP Hx)].
  - simpl. destruct (only_text (Object_keys o)) eqn:Eot.
    + apply only_text_inv in Eot as [t ->].
      unfold prop; cbn [obj_get]. rewrite str_eqb_refl.
      apply is_string_sentinel_free.
      simpl in HG. rewrite andb_true_r in HG. exact HG.
    + simpl. apply forallb_forall. apply Forall_forall.
      apply fold_left_invariant.
      * unfold merge_attributes, prop.
        destruct (obj_get o key_attributes) as [attrs|] eqn:G;
          [|constructor].
        destruct (is_object_like attrs); [|constructor].
        destruct (GenericNode_attributes o attrs HG G) as (a & -> & Ha).
        simpl in HP.
        pose proof (forallb_In _ _ _ HP (obj_get_In _ _ _ G)) as Hk.
        cbn [fst snd Object_entries] in Hk. rewrite str_eqb_refl in Hk.
        apply fold_left_invariant; [constructor|].
        intros out kv Hkv Hout. apply obj_set_Forall; [assumption|].
        intros _. simpl.
        rewrite (forallb_In _ _ _ Hk Hkv). simpl.
        apply is_string_sentinel_free. apply (forallb_In _ _ _ Ha Hkv).
      * intros out kv Hkv Hout. unfold child_step.
        destruct (is_sentinel (fst kv)) eqn:Es; [assumption|].
        apply obj_set_Forall; [assumption|]. intros _. simpl.
        rewrite Es. simpl.
        rewrite Forall_forall in IH. apply IH; [assumption| |].
        -- apply (GenericNode_child o kv HG Hkv Es).
        -- simpl in HP. pose proof (forallb_In _ _ _ HP Hkv) as H.
           cbn beta in H. rewrite Es in H.
           destruct (is_sentinel_false _ Es) as (H1 & _). rewrite H1 in H.
           exact H.
Qed.

Lemma normalize_sentinel_free_witness :
  sentinel_free
    (normalizeXmlJs true
       (VObject [(key_declaration,
                   VObject [(key_attributes,
                             VObject [(js "version", VString (js "1.0"))])]);
                 (js "a", VObject [(key_attributes,
                                     VObject [(js "id", VString (js "1"))]);
                                   (js "b", VObject [(key_text, VString (js "x"))])])]))
  = true.
Proof.
  apply normalize_sentinel_free; reflexivity.
Defined.

(** C2 as it was claimed fails: under the prefix the attribute [text] of
    [<a text="x"/>] is written under the key [_text]. *)
Lemma normalize_output_has_sentinel_key :
  normalizeXmlJs true (VObject [(js "a", text_attribute_element)])
  = VObject [(js "a", VObject [(key_text, VString (js "x"))])]
  /\ sentinel_free
       (normalizeXmlJs true (VObject [(js "a", text_attribute_element)]))
     = false.
Proof. split; reflexivity. Qed.

(** ** What becomes of attributes and children *)

Lemma attr_key_injective (prefixAttr : bool) (k k' : jsstring) :
  attr_key prefixAttr k = attr_key prefixAttr k' -> k = k'.
Proof.
  unfold attr_key. destruct prefixAttr; [|auto].
  intros H. injection H; auto.
Qed.

Lemma fold_child_step_get_other (prefixAttr : bool) (o out : props)
  (k : jsstring) :
  (forall kv, In kv o -> is_sentinel (fst kv) = false -> fst kv <> k) ->
  obj_get (fold_left (child_step prefixAttr) o out) k = obj_get out k.
Proof.
  revert out. induction o as [|kv o IH]; intros out H; simpl; [reflexivity|].
  rewrite IH by (intros kv' Hin; apply H; right; exact Hin).
  unfold child_step. destruct (is_sentinel (fst kv)) eqn:Es; [reflexivity|].
  apply obj_get_set_other. intros Heq. symmetry in Heq. revert Heq.
  apply H; [left; reflexivity | exact Es].
Qed.

(** A child that is not skipped is in the output, normalized, under its
    own key, whatever an attribute put there before. *)
Lemma fold_child_step_get (prefixAttr : bool) (o out : props)
  (k : jsstring) (v : value) :
  NoDup (Object_keys o) -> In (k, v) o ->
  is_sentinel k = false -> k <> key_proto ->
  obj_get (fold_left (child_step prefixAttr) o out) k
  = Some (normalizeXmlJs prefixAttr v).
Proof.
  revert out. induction o as [|[k' v'] o IH]; intros out Hnd Hin Hs Hp;
    [contradiction|].
  simpl in Hnd. inversion Hnd as [|? ? Hnotin Hnd']; subst.
  destruct Hin as [Heq|Hin].
  - injection Heq as -> ->. simpl.
    rewrite fold_child_step_get_other.
    + unfold child_step; simpl. rewrite Hs. apply obj_get_set_same; exact Hp.
    + intros kv Hkv _ Heq. apply Hnotin. rewrite <- Heq.
      apply (in_map fst _ _ Hkv).
  - simpl. apply IH; assumption.
Qed.

Lemma fold_attributes_get_other (prefixAttr : bool) (a out : props)
  (k : jsstring) :
  (forall kv, In kv a -> attr_key prefixAttr (fst kv) <> k) ->
  obj_get
    (fold_left (fun out kv => obj_set out (attr_key prefixAttr (fst kv)) (snd kv))
       a out) k
  = obj_get out k.
Proof.
  revert out. induction a as [|kv a IH]; intros out H; simpl; [reflexivity|].
  rewrite IH by (intros kv' Hin; apply H; right; exact Hin).
  apply obj_get_set_other. intros Heq. symmetry in Heq. revert Heq.
  apply H; left; reflexivity.
Qed.

Lemma fold_attributes_get (prefixAttr : bool) (a out : props)
  (k : jsstring) (v : value) :
  NoDup (Object_keys a) -> In (k, v) a ->
  attr_key prefixAttr k <> key_proto ->
  obj_get
    (fold_left (fun out kv => obj_set out (attr_key prefixAttr (fst kv)) (snd kv))
       a out) (attr_key prefixAttr k)
  = Some v.
Proof.
  revert out. induction a as [|[k' v'] a IH]; intros out Hnd Hin Hp;
    [contradiction|].
  simpl in Hnd. inversion Hnd as [|? ? Hnotin Hnd']; subst.
  destruct Hin as [Heq|Hin].
  - injection Heq as -> ->. simpl.
    rewrite fold_attributes_get_other.
    + apply obj_get_set_same; exact Hp.
    + intros kv Hkv Heq. apply attr_key_injective in Heq.
      apply Hnotin. rewrite <- Heq. apply (in_map fst _ _ Hkv).
  - simpl. apply IH; assumption.
Qed.

(** An attribute [(k, v)] whose key in the output is not ["__proto__"] and
    is not the key of a child is in the output under that key, with its
    value as it was. *)
Lemma normalize_keeps_attribute (prefixAttr : bool) (o a : props)
  (k : jsstring) (v : value) :
  only_text (Object_keys o) = false ->
  obj_get o key_attributes = Some (VObject a) ->
  NoDup (Object_keys a) -> In (k, v) a ->
  attr_key prefixAttr k <> key_proto ->
  (forall kv, In kv o -> is_sentinel (fst kv) = false ->
              fst kv <> attr_key prefixAttr k) ->
  member (normalizeXmlJs prefixAttr (VObject o)) (attr_key prefixAttr k) = v.
Proof.
  intros Hot Hget Hnd Hin Hp Hchild.
  rewrite (normalizeXmlJs_object _ _ Hot). unfold member, prop.
  rewrite fold_child_step_get_other by exact Hchild.
  rewrite Hget. unfold merge_attributes; simpl.
  rewrite (fold_attributes_get prefixAttr a [] k v Hnd Hin Hp). reflexivity.
Qed.

(** A child under a key that is not reserved and not ["__proto__"] is in
    the output under that key, normalized; it replaces an attribute
    written under the same key. *)
Lemma normalize_child_overwrites (prefixAttr : bool) (o : props)
  (k : jsstring) (v : value) :
  NoDup (Object_keys o) -> In (k, v) o ->
  is_sentinel k = false -> k <> key_proto ->
  member (normalizeXmlJs prefixAttr (VObject o)) k = normalizeXmlJs prefixAttr v.
Proof.
  intros Hnd Hin Hs Hp.
  assert (Hot : only_text (Object_keys o) = false).
  { destruct (only_text (Object_keys o)) eqn:E; [|reflexivity].
    apply only_text_inv in E as [t ->]. destruct Hin as [Heq|[]].
    injection Heq as <- _. discriminate. }
  rewrite (normalizeXmlJs_object _ _ Hot). unfold member, prop.
  rewrite (fold_child_step_get prefixAttr o _ k v Hnd Hin Hs Hp). reflexivity.
Qed.

Example attribute_then_child_same_key :
  normalizeXmlJs true
    (VObject [(key_attributes, VObject [(js "id", VString (js "1"));
                                        (js "x", VString (js "attr"))]);
              (js "_x", VObject [(key_text, VString (js "child"))]);
              (js "b", VObject [])])
  = VObject [(js "_id", VString (js "1")); (js "_x", VString (js "child"));
             (js "b", VObject [])].
Proof. reflexivity. Qed.

(** C3, at the element [<a _proto__="x"/>]: the attribute [_proto__] is
    due under the key ["__proto__"], but the assignment [out[key] = v]
    with that key adds no property, and the element normalizes to the
    empty object; its sibling attribute [id] is kept under ["_id"]. *)
Theorem normalize_loses_proto_attribute :
  normalizeXmlJs true
    (VObject [(js "a", VObject [(key_attributes,
                                  VObject [(js "_proto__", VString (js "x"))])])])
  = VObject [(js "a", VObject [])]
  /\ attr_key true (js "_proto__") = key_proto
  /\ normalizeXmlJs true
       (VObject [(key_attributes, VObject [(js "id", VString (js "1"));
                                           (js "_proto__", VString (js "x"))])])
     = VObject [(js "_id", VString (js "1"))].
Proof. repeat split. Qed.

(** ** Enumeration order *)

Lemma keys_replace (o : props) (k : jsstring) (v : value) :
  Object_keys (obj_replace o k v) = Object_keys o.
Proof.
  induction o as [|[k' v'] o IH]; simpl; [reflexivity|].
  destruct (str_eqb k k'); simpl; [reflexivity | rewrite IH; reflexivity].
Qed.

Lemma keys_insert_In (o : props) (k l : jsstring) (v : value) :
  In l (Object_keys (obj_insert o k v)) -> l = k \/ In l (Object_keys o).
Proof.
  induction o as [|[k' v'] o IH]; simpl.
  - intros [H|[]]; left; auto.
  - destruct (enumerates_before k k'); simpl.
    + intros [H|H]; [left; auto | right; exact H].
    + intros [H|H]; [right; left; exact H|].
      destruct (IH H) as [Hk|Hin]; [left; exact Hk | right; right; exact Hin].
Qed.

Lemma keys_set_In (out : props) (k l : jsstring) (v : value) :
  In l (Object_keys (obj_set out k v)) ->
  (l = k /\ k <> key_proto) \/ In l (Object_keys out).
Proof.
  unfold obj_set, obj_define.
  destruct (str_eqb k key_proto) eqn:E; [right; assumption|].
  apply str_eqb_neq in E.
  destruct (has_key k out).
  - rewrite keys_replace; right; assumption.
  - intros H. destruct (keys_insert_In _ _ _ _ H); [left | right]; auto.
Qed.

(** A key that goes before [k'] goes before all that may follow [k']. *)
Lemma enumerates_before_later (k k' l : jsstring) :
  enumerates_before k k' = true -> may_follow k' l ->
  enumerates_before l k = false.
Proof.
  unfold may_follow, enumerates_before. intros H [_ Hl].
  destruct (array_index k) as [i|]; [|discriminate].
  destruct (array_index l) as [m|]; [|reflexivity].
  destruct (array_index k') as [j|]; [|discriminate].
  apply N.ltb_lt in H. apply N.ltb_ge in Hl. apply N.ltb_ge. lia.
Qed.

Lemma enumerates_before_asym (k k' : jsstring) :
  enumerates_before k k' = true -> enumerates_before k' k = false.
Proof.
  unfold enumerates_before.
  destruct (array_index k) as [i|]; [|discriminate].
  destruct (array_index k') as [j|]; [|reflexivity].
  intros H. apply N.ltb_lt in H. apply N.ltb_ge. lia.
Qed.

Lemma insert_enumerated (o : props) (k : jsstring) (v : value) :
  enumerated (Object_keys o) -> ~ In k (Object_keys o) ->
  enumerated (Object_keys (obj_insert o k v)).
Proof.
  unfold enumerated.
  induction o as [|[k' v'] o IH]; simpl; intros Ho Hk.
  - constructor; constructor.
  - inversion Ho as [|? ? Hall Hrest]; subst.
    destruct (enumerates_before k k') eqn:E; simpl.
    + constructor; [|assumption].
      constructor.
      * split; [intros ->; apply Hk; left; reflexivity|].
        apply enumerates_before_asym; assumption.
      * rewrite Forall_forall in *. intros l Hl. split.
        -- intros ->. apply Hk; right; assumption.
        -- apply (enumerates_before_later k k' l E). apply Hall; assumption.
    + constructor.
      * rewrite Forall_forall in *. intros l Hl.
        destruct (keys_insert_In _ _ _ _ Hl) as [->|Hin].
        -- split; [intros ->; apply Hk; left; reflexivity | assumption].
        -- apply Hall; assumption.
      * apply IH; [assumption|]. intros Hin; apply Hk; right; assumption.
Qed.

Lemma set_enumerated (out : props) (k : jsstring) (v : value) :
  enumerated (Object_keys out) -> enumerated (Object_keys (obj_set out k v)).
Proof.
  intros H. unfold obj_set, obj_define.
  destruct (str_eqb k key_proto); [assumption|].
  destruct (has_key k out) eqn:E.
  - rewrite keys_replace; assumption.
  - apply insert_enumerated; [assumption | apply has_key_false; assumption].
Qed.

(** A key that goes before none of the keys present is added at the end. *)
Lemma insert_at_end (o : props) (k : jsstring) (v : value) :
  Forall (fun e => enumerates_before k e = false) (Object_keys o) ->
  obj_insert o k v = o ++ [(k, v)].
Proof.
  induction o as [|[k' v'] o IH]; simpl; intros H; [reflexivity|].
  inversion H as [|? ? Hk' Ho]; subst. rewrite Hk', IH by assumption.
  reflexivity.
Qed.

Lemma ForallOrdPairs_app_inv {A : Type} (R : A -> A -> Prop) (l1 l2 : list A) :
  ForallOrdPairs R (l1 ++ l2) ->
  forall a b, In a l1 -> In b l2 -> R a b.
Proof.
  induction l1 as [|x l1 IH]; simpl; intros H a b Ha Hb; [contradiction|].
  inversion H as [|? ? Hall Hrest]; subst.
  destruct Ha as [->|Ha].
  - rewrite Forall_forall in Hall. apply Hall. apply in_or_app; right; assumption.
  - apply IH; assumption.
Qed.

(** ** Normal forms *)

Lemma under_construction_set (out : props) (k : jsstring) (v : value) :
  under_construction out -> built v -> under_construction (obj_set out k v).
Proof.
  intros (He & Hp & Hb) Hv. repeat split.
  - apply set_enumerated; assumption.
  - intros Hin. destruct (keys_set_In _ _ _ _ Hin) as [[Heq Hne]|H]; auto.
  - apply obj_set_Forall; auto.
Qed.

Lemma is_string_built (v : value) : is_string v = true -> built v.
Proof.
  destruct v; try discriminate. intros _.
  apply built_scalar; [reflexivity | apply andb_false_r].
Qed.

(** The normal form of a tree of the data model is a built value. *)
Lemma normalize_built (prefixAttr : bool) (node : value) :
  GenericNode node = true -> built (normalizeXmlJs prefixAttr node).
Proof.
  induction node as [| |b|x|s|l IH|o IH] using value_induction;
    intros HG; try discriminate.
  - apply is_string_built; reflexivity.
  - simpl. apply built_array. apply Forall_forall. intros y Hy.
    apply in_map_iff in Hy as (x & <- & Hx).
    rewrite Forall_forall in IH. apply IH; [assumption|].
    apply (forallb_In _ _ _ HG Hx).
  - simpl. destruct (only_text (Object_keys o)) eqn:Eot.
    + apply only_text_inv in Eot as [t ->].
      unfold prop; cbn [obj_get]. rewrite str_eqb_refl.
      apply is_string_built.
      simpl in HG. rewrite andb_true_r in HG. exact HG.
    + assert (H : under_construction
                    (fold_left (child_step prefixAttr) o
                       (merge_attributes prefixAttr (prop o key_attributes) []))).
      { apply fold_left_invariant.
        - unfold merge_attributes, prop.
          assert (H0 : under_construction []).
          { repeat split; [constructor | intros [] | constructor]. }
          destruct (obj_get o key_attributes) as [attrs|] eqn:G; [|exact H0].
          destruct (is_object_like attrs); [|exact H0].
          destruct (GenericNode_attributes o attrs HG G) as (a & -> & Ha).
          apply fold_left_invariant; [exact H0|].
          intros out kv Hkv Hout. apply under_construction_set; [assumption|].
          apply is_string_built. apply (forallb_In _ _ _ Ha Hkv).
        - intros out kv Hkv Hout. unfold child_step.
          destruct (is_sentinel (fst kv)) eqn:Es; [assumption|].
          apply under_construction_set; [assumption|].
          rewrite Forall_forall in IH. apply IH; [assumption|].
          apply (GenericNode_child o kv HG Hkv Es). }
      destruct H as (He & Hp & Hb). apply built_object; assumption.
Qed.

Lemma map_fixed {A : Type} (f : A -> A) (l : list A) :
  Forall (fun x => f x = x) l -> map f l = l.
Proof.
  induction 1 as [|x l Hx Hl IH]; simpl; [reflexivity|].
  rewrite Hx, IH; reflexivity.
Qed.

(** Assigning the properties of an enumerated object one by one, in
    order, builds that object again. *)
Lemma fold_child_step_rebuild (prefixAttr : bool) (rest : props) :
  forall acc : props,
    enumerated (Object_keys (acc ++ rest)) ->
    ~ In key_proto (Object_keys rest) ->
    Forall (fun kv => is_sentinel (fst kv) = false
                      /\ normalizeXmlJs prefixAttr (snd kv) = snd kv) rest ->
    fold_left (child_step prefixAttr) rest acc = acc ++ rest.
Proof.
  induction rest as [|[k v] rest IH]; intros acc He Hp Hf; simpl.
  - rewrite app_nil_r; reflexivity.
  - inversion Hf as [|? ? [Hs Hn] Hrest]; subst. simpl in Hs, Hn.
    assert (Hset : child_step prefixAttr acc (k, v) = acc ++ [(k, v)]).
    { unfold child_step; simpl. rewrite Hs, Hn.
      unfold obj_set, obj_define, Object_keys in *.
      rewrite map_app in He. simpl in He.
      assert (Hk : str_eqb k key_proto = false).
      { apply str_eqb_neq. intros ->. apply Hp; left; reflexivity. }
      assert (Hacc : forall e, In e (map fst acc) -> may_follow e k).
      { intros e Hin.
        apply (ForallOrdPairs_app_inv _ _ _ He e k Hin). left; reflexivity. }
      assert (Hnew : has_key k acc = false).
      { apply has_key_false. intros Hin.
        destruct (Hacc k Hin) as [Hne _]. apply Hne; reflexivity. }
      rewrite Hk, Hnew. apply insert_at_end.
      apply Forall_forall. intros e Hin. apply (Hacc e Hin). }
    rewrite Hset. rewrite IH.
    + rewrite <- app_assoc; reflexivity.
    + rewrite <- app_assoc; exact He.
    + intros Hin. apply Hp; right; exact Hin.
    + exact Hrest.
Qed.

(** The normalizer leaves a built value without reserved keys as it is. *)
Lemma normalize_fixes_normal_forms (prefixAttr : bool) (v : value) :
  built v -> sentinel_free v = true -> normalizeXmlJs prefixAttr v = v.
Proof.
  induction v as [| |b|x|s|l IH|o IH] using value_induction;
    intros Hb Hs; try reflexivity.
  - inversion Hb as [? Harr _|? Hl|]; subst; [discriminate|].
    simpl. f_equal. apply map_fixed.
    rewrite Forall_forall in *. intros x Hx.
    apply IH; [assumption | apply Hl; assumption|].
    apply (forallb_In _ _ _ Hs Hx).
  - inversion Hb as [? _ Hobj| |? He Hp Hv]; subst; [discriminate|].
    simpl in Hs.
    assert (Hkeys : forall kv, In kv o -> is_sentinel (fst kv) = false).
    { intros kv Hin. pose proof (forallb_In _ _ _ Hs Hin) as H.
      cbn beta in H. apply andb_true_iff in H as [H _].
      apply negb_true_iff in H. exact H. }
    assert (Hot : only_text (Object_keys o) = false).
    { destruct (only_text (Object_keys o)) eqn:E; [|reflexivity].
      apply only_text_inv in E as [t ->].
      specialize (Hkeys _ (or_introl eq_refl)). discriminate. }
    assert (Hattrs : obj_get o key_attributes = None).
    { apply obj_get_None. unfold Object_keys. intros Hin.
      apply in_map_iff in Hin as (kv & Hk & Hin).
      specialize (Hkeys kv Hin). rewrite Hk in Hkeys. discriminate. }
    rewrite (normalizeXmlJs_object _ _ Hot). unfold prop. rewrite Hattrs.
    unfold merge_attributes; simpl.
    rewrite fold_child_step_rebuild; [reflexivity | exact He | exact Hp|].
    rewrite Forall_forall in *. intros kv Hin. split; [auto|].
    apply IH; [assumption | apply Hv; assumption|].
    pose proof (forallb_In _ _ _ Hs Hin) as H.
    cbn beta in H. apply andb_true_iff in H as [_ H]. exact H.
Qed.

(** C9, as the code has it: on a tree of the data model whose normal form
    has none of the reserved keys, normalizing the normal form again, with
    any option, returns it unchanged. *)
Theorem normalize_idempotent (prefixAttr again : bool) (node : value) :
  GenericNode node = true ->
  sentinel_free (normalizeXmlJs prefixAttr node) = true ->
  normalizeXmlJs again (normalizeXmlJs prefixAttr node)
  = normalizeXmlJs prefixAttr node.
Proof.
  intros HG Hs. apply normalize_fixes_normal_forms; [|exact Hs].
  apply normalize_built; exact HG.
Qed.

Lemma normalize_idempotent_witness :
  normalizeXmlJs true
    (normalizeXmlJs true
       (VObject [(js "a", VObject [(key_attributes,
                                     VObject [(js "id", VString (js "1"))]);
                                   (js "b", VArray [VObject [(key_text, VString (js "1"))];
                                                    VObject [(key_text, VString (js "2"))]])])]))
  = normalizeXmlJs true
      (VObject [(js "a", VObject [(key_attributes,
                                    VObject [(js "id", VString (js "1"))]);
                                  (js "b", VArray [VObject [(key_text, VString (js "1"))];
                                                   VObject [(key_text, VString (js "2"))]])])]).
Proof.
  apply normalize_idempotent; reflexivity.
Defined.

(** C9 as it was claimed fails: the normal form [{"_text": "x"}] of
    [<a text="x"/>] is itself a pure text leaf, and normalizes to ["x"]. *)
Lemma normalize_twice_differs :
  normalizeXmlJs true text_attribute_element
  = VObject [(key_text, VString (js "x"))]
  /\ normalizeXmlJs true (normalizeXmlJs true text_attribute_element)
     = VString (js "x")
  /\ normalizeXmlJs true (normalizeXmlJs true text_attribute_element)
     <> normalizeXmlJs true text_attribute_element.
Proof. repeat split. discriminate. Qed.

(** ** String literals of JSON *)

Lemma hex_value_digit (d : N) : d < 16 -> hex_value (hex_digit d) = Some d.
Proof.
  intros H. destruct d as [|p]; [reflexivity|].
  do 4 (destruct p as [p|p|]; try reflexivity; try lia).
Qed.


Lemma hex4_escape (c : code_unit) :
  c < 65536 ->
  hex4_value (hex_digit ((c / 4096) mod 16)) (hex_digit ((c / 256) mod 16))
             (hex_digit ((c / 16) mod 16)) (hex_digit (c mod 16))
  = Some c.
Proof.
  intros H. unfold hex4_value.
  rewrite !hex_value_digit by (apply N.mod_lt; discriminate).
  f_equal.
  assert (D1 : c / 16 / 16 = c / 256) by (rewrite N.Div0.div_div; reflexivity).
  assert (D2 : c / 256 / 16 = c / 4096) by (rewrite N.Div0.div_div; reflexivity).
  assert (D3 : c / 4096 < 16) by (apply N.Div0.div_lt_upper_bound; lia).
  rewrite (N.mod_small _ _ D3).
  pose proof (N.div_mod c 16 ltac:(discriminate)) as E0.
  pose proof (N.div_mod (c / 16) 16 ltac:(discriminate)) as E1.
  pose proof (N.div_mod (c / 256) 16 ltac:(discriminate)) as E2.
  rewrite D1 in E1. rewrite D2 in E2.
  lia.
Qed.

(** A code unit the parser copies: not a control character, a quote or a
    backslash. *)
Lemma parse_string_body_copy (c : code_unit) (text : jsstring) :
  32 <= c -> c <> 34 -> c <> 92 ->
  parse_string_body (c :: text) = cons_result c (parse_string_body text).
Proof.
  intros H32 H34 H92. simpl.
  apply N.eqb_neq in H34, H92. rewrite H34, H92.
  apply N.ltb_ge in H32. rewrite H32. reflexivity.
Qed.

Lemma parse_string_body_unicode_escape (c : code_unit) (text : jsstring) :
  c < 65536 ->
  parse_string_body (unicode_escape c ++ text)
  = cons_result c (parse_string_body text).
Proof.
  intros H. unfold unicode_escape.
  cbn [app parse_string_body N.eqb Pos.eqb].
  rewrite (hex4_escape c H). reflexivity.
Qed.

Lemma parse_string_body_quote_unit (c : code_unit) (text : jsstring) :
  is_high_surrogate c = false -> is_low_surrogate c = false ->
  parse_string_body (quote_unit c ++ text)
  = cons_result c (parse_string_body text).
Proof.
  intros Hh Hl. unfold quote_unit.
  repeat match goal with
         | |- context [if ?x =? ?n then _ else _] =>
             destruct (N.eqb_spec x n) as [->|?]; [reflexivity|]
         end.
  destruct (N.ltb_spec c 32).
  - apply parse_string_body_unicode_escape. lia.
  - apply parse_string_body_copy; assumption.
Qed.

Lemma surrogate_bounds (c : code_unit) :
  is_high_surrogate c = true \/ is_low_surrogate c = true ->
  32 <= c /\ c <> 34 /\ c <> 92 /\ c < 65536.
Proof.
  unfold is_high_surrogate, is_low_surrogate.
  intros [H|H]; apply andb_true_iff in H as [H1 H2];
    apply N.leb_le in H1, H2; lia.
Qed.

(** The parser reads back what QuoteJSONString wrote. *)
Lemma parse_string_body_quote_body (n : nat) :
  forall s text : jsstring,
    (List.length s <= n)%nat ->
    parse_string_body (quote_body s ++ 34 :: text) = Some (s, text).
Proof.
  induction n as [|n IH]; intros s text Hlen.
  - destruct s; [reflexivity | simpl in Hlen; lia].
  - destruct s as [|c s]; [reflexivity|].
    simpl in Hlen. cbn [quote_body].
    destruct (is_high_surrogate c) eqn:Eh.
    + destruct (surrogate_bounds c (or_introl Eh)) as (B1 & B2 & B3 & B4).
      destruct s as [|d s].
      * rewrite parse_string_body_unicode_escape by assumption. reflexivity.
      * destruct (is_low_surrogate d) eqn:El.
        -- destruct (surrogate_bounds d (or_intror El)) as (C1 & C2 & C3 & C4).
           cbn [app].
           rewrite parse_string_body_copy by assumption.
           rewrite parse_string_body_copy by assumption.
           rewrite IH by (simpl in Hlen; lia). reflexivity.
        -- rewrite <- app_assoc.
           rewrite parse_string_body_unicode_escape by assumption.
           rewrite IH by lia. reflexivity.
    + destruct (is_low_surrogate c) eqn:El.
      * destruct (surrogate_bounds c (or_intror El)) as (B1 & B2 & B3 & B4).
        rewrite <- app_assoc.
        rewrite parse_string_body_unicode_escape by assumption.
        rewrite IH by lia. reflexivity.
      * rewrite <- app_assoc.
        rewrite parse_string_body_quote_unit by assumption.
        rewrite IH by lia. reflexivity.
Qed.

Lemma parse_string_body_quoted (s text : jsstring) :
  parse_string_body (quote_body s ++ 34 :: text) = Some (s, text).
Proof. apply (parse_string_body_quote_body (List.length s)); lia. Qed.

(** ** White space and the layout of [JSON.stringify] *)

Lemma skip_ws_app (ws text : jsstring) :
  forallb is_json_ws ws = true -> skip_ws (ws ++ text) = skip_ws text.
Proof.
  induction ws as [|c ws IH]; simpl; [reflexivity|].
  intros H; apply andb_true_iff in H as [Hc Hws]. rewrite Hc; auto.
Qed.

Lemma skip_ws_head (c : code_unit) (text : jsstring) :
  is_json_ws c = false -> skip_ws (c :: text) = c :: text.
Proof. intros H; simpl; rewrite H; reflexivity. Qed.

Lemma lead_ws (gap indent : jsstring) :
  forallb is_json_ws indent = true -> forallb is_json_ws (lead gap indent) = true.
Proof. intros H. destruct gap; simpl; [reflexivity | exact H]. Qed.

Lemma wrap_partial_nonempty (opening closing : code_unit)
  (gap stepback indent : jsstring) (partial : list jsstring) :
  partial <> [] ->
  wrap_partial opening closing gap stepback indent partial
  = opening :: lead gap indent ++ join (44 :: lead gap indent) partial
      ++ lead gap stepback ++ [closing].
Proof.
  intros H. destruct partial as [|p ps]; [contradiction|].
  unfold wrap_partial, lead. destruct gap; reflexivity.
Qed.

Lemma join_cons (sep p q : jsstring) (ps : list jsstring) :
  join sep (p :: q :: ps) = p ++ sep ++ join sep (q :: ps).
Proof. reflexivity. Qed.

Lemma length_join_parts (sep : jsstring) (parts : list jsstring) :
  sep <> [] ->
  (fold_right (fun p n => S (List.length p) + n) 0 parts
   <= S (List.length (join sep parts)))%nat.
Proof.
  intros Hsep. destruct sep as [|c sep]; [contradiction|].
  induction parts as [|p [|q ps] IH].
  - simpl; lia.
  - simpl; lia.
  - rewrite join_cons. cbn [fold_right] in *. rewrite !length_app.
    cbn [List.length]. lia.
Qed.

Section RoundTrip.

Variable Number_toString : spec_float -> jsstring.
Variable StringToNumber : jsstring -> spec_float.

Lemma serialize_normalized (gap indent : jsstring) (v : value) :
  NormalizedValue v = true ->
  exists c text,
    SerializeJSONProperty Number_toString gap indent v = Some (c :: text)
    /\ (c = 34 \/ c = 91 \/ c = 123).
Proof.
  destruct v as [| |b|x|s|l|o]; try discriminate; intros _.
  - exists 34, (quote_body s ++ [34]). split; [reflexivity | auto].
  - cbn [SerializeJSONProperty].
    destruct (map _ l) as [|p ps] eqn:E.
    + exists 91, [93]. split; [reflexivity | auto].
    + rewrite wrap_partial_nonempty by discriminate.
      eexists 91, _. split; [reflexivity | auto].
  - cbn [SerializeJSONProperty].
    destruct (flat_map _ o) as [|p ps] eqn:E.
    + exists 123, [125]. split; [reflexivity | auto].
    + rewrite wrap_partial_nonempty by discriminate.
      eexists 123, _. split; [reflexivity | auto].
Qed.

Lemma element_text_head (gap indent : jsstring) (v : value) :
  NormalizedValue v = true ->
  exists c text,
    element_text Number_toString gap indent v = c :: text /\ (c = 34 \/ c = 91 \/ c = 123).
Proof.
  intros H. destruct (serialize_normalized gap indent v H) as (c & t & E & Hc).
  exists c, t. unfold element_text. rewrite E. auto.
Qed.

Lemma members_of_normalized (gap indent : jsstring) (o : props) :
  forallb (fun kv => NormalizedValue (snd kv)) o = true ->
  flat_map
    (fun kv =>
       match SerializeJSONProperty Number_toString gap indent (snd kv) with
       | Some str =>
           [QuoteJSONString (fst kv) ++ 58 ::
              match gap with [] => [] | _ => [32] end ++ str]
       | None => []
       end) o
  = map (member_text Number_toString gap indent) o.
Proof.
  induction o as [|kv o IH]; [reflexivity|].
  cbn [flat_map map forallb].
  intros H; apply andb_true_iff in H as [Hv Ho].
  rewrite IH by assumption. unfold member_text, element_text.
  destruct (serialize_normalized gap indent (snd kv) Hv) as (c & t & E & _).
  rewrite E. reflexivity.
Qed.

Lemma serialize_array (gap indent : jsstring) (l : list value) :
  l <> [] ->
  SerializeJSONProperty Number_toString gap indent (VArray l)
  = Some (91 :: lead gap (indent ++ gap)
            ++ join (44 :: lead gap (indent ++ gap))
                 (map (element_text Number_toString gap (indent ++ gap)) l)
            ++ lead gap indent ++ [93]).
Proof.
  intros H. cbn [SerializeJSONProperty].
  rewrite wrap_partial_nonempty; [reflexivity|].
  destruct l; [contradiction | discriminate].
Qed.

Lemma serialize_object (gap indent : jsstring) (o : props) :
  o <> [] ->
  forallb (fun kv => NormalizedValue (snd kv)) o = true ->
  SerializeJSONProperty Number_toString gap indent (VObject o)
  = Some (123 :: lead gap (indent ++ gap)
            ++ join (44 :: lead gap (indent ++ gap))
                 (map (member_text Number_toString gap (indent ++ gap)) o)
            ++ lead gap indent ++ [125]).
Proof.
  intros H Ho. cbn [SerializeJSONProperty].
  rewrite members_of_normalized by assumption.
  rewrite wrap_partial_nonempty; [reflexivity|].
  destruct o; [contradiction | discriminate].
Qed.

Lemma parse_value_skip (fuel : nat) (ws text : jsstring) :
  forallb is_json_ws ws = true ->
  parse_value StringToNumber fuel (ws ++ text)
  = parse_value StringToNumber fuel text.
Proof.
  intros H. destruct fuel; [reflexivity|].
  simpl. rewrite (skip_ws_app ws text H). reflexivity.
Qed.

Lemma parse_value_string (fuel : nat) (s text : jsstring) :
  parse_value StringToNumber (S fuel) (34 :: quote_body s ++ 34 :: text)
  = Some (VString s, text).
Proof.
  simpl. rewrite parse_string_body_quoted. reflexivity.
Qed.

Lemma parse_value_array (fuel : nat) (c : code_unit) (r t : jsstring) :
  skip_ws r = c :: t -> c <> 93 ->
  parse_value StringToNumber (S fuel) (91 :: r)
  = match parse_elements StringToNumber fuel r with
    | Some (vs, rest) => Some (VArray vs, rest)
    | None => None
    end.
Proof.
  intros Hr Hc. simpl. rewrite Hr.
  apply N.eqb_neq in Hc. rewrite Hc. reflexivity.
Qed.

Lemma parse_value_object (fuel : nat) (c : code_unit) (r t : jsstring) :
  skip_ws r = c :: t -> c <> 125 ->
  parse_value StringToNumber (S fuel) (123 :: r)
  = match parse_members StringToNumber fuel r with
    | Some (ms, rest) => Some (VObject (define_all ms), rest)
    | None => None
    end.
Proof.
  intros Hr Hc. simpl. rewrite Hr.
  apply N.eqb_neq in Hc. rewrite Hc. reflexivity.
Qed.

(** One element, then the closing bracket or a comma and more. *)
Lemma parse_elements_last (fuel : nat) (text after rest : jsstring)
  (v : value) :
  parse_value StringToNumber fuel text = Some (v, after) ->
  skip_ws after = 93 :: rest ->
  parse_elements StringToNumber (S fuel) text = Some ([v], rest).
Proof.
  intros Hv Ha. simpl. rewrite Hv, Ha. reflexivity.
Qed.

Lemma parse_elements_more (fuel : nat) (text after more rest : jsstring)
  (v : value) (vs : list value) :
  parse_value StringToNumber fuel text = Some (v, after) ->
  skip_ws after = 44 :: more ->
  parse_elements StringToNumber fuel more = Some (vs, rest) ->
  parse_elements StringToNumber (S fuel) text = Some (v :: vs, rest).
Proof.
  intros Hv Ha Hm. simpl. rewrite Hv, Ha. simpl.
  rewrite Hm. reflexivity.
Qed.

Lemma parse_members_last (fuel : nat) (ws text after rest k : jsstring)
  (v : value) :
  forallb is_json_ws ws = true ->
  parse_value StringToNumber fuel text = Some (v, after) ->
  skip_ws after = 125 :: rest ->
  parse_members StringToNumber (S fuel)
    (ws ++ QuoteJSONString k ++ 58 :: text)
  = Some ([(k, v)], rest).
Proof.
  intros Hws Hv Ha. simpl. rewrite (skip_ws_app _ _ Hws).
  unfold QuoteJSONString. cbn [app skip_ws is_json_ws N.eqb Pos.eqb orb].
  rewrite <- app_assoc. cbn [app].
  rewrite parse_string_body_quoted. cbn [skip_ws is_json_ws N.eqb Pos.eqb orb].
  rewrite Hv, Ha. reflexivity.
Qed.

Lemma parse_members_more (fuel : nat) (ws text after more rest k : jsstring)
  (v : value) (ms : props) :
  forallb is_json_ws ws = true ->
  parse_value StringToNumber fuel text = Some (v, after) ->
  skip_ws after = 44 :: more ->
  parse_members StringToNumber fuel more = Some (ms, rest) ->
  parse_members StringToNumber (S fuel)
    (ws ++ QuoteJSONString k ++ 58 :: text)
  = Some ((k, v) :: ms, rest).
Proof.
  intros Hws Hv Ha Hm. simpl. rewrite (skip_ws_app _ _ Hws).
  unfold QuoteJSONString. cbn [app skip_ws is_json_ws N.eqb Pos.eqb orb].
  rewrite <- app_assoc. cbn [app].
  rewrite parse_string_body_quoted. cbn [skip_ws is_json_ws N.eqb Pos.eqb orb].
  rewrite Hv, Ha. simpl.
  rewrite Hm. reflexivity.
Qed.

Lemma parse_elements_joined (gap indent ws : jsstring) :
  forallb is_json_ws ws = true ->
  forall l : list value,
    l <> [] ->
    Forall (reads_back Number_toString StringToNumber gap indent) l ->
    forall (fuel : nat) (tail rest : jsstring),
      skip_ws tail = 93 :: rest ->
      (fold_right (fun e n => S (size e) + n) 0 l <= fuel)%nat ->
      parse_elements StringToNumber fuel
        (ws ++ join (44 :: ws) (map (element_text Number_toString gap indent) l) ++ tail)
      = Some (map reparsed l, rest).
Proof.
  intros Hws. induction l as [|v [|w l] IH];
    intros Hne Hall fuel tail rest Ht Hf.
  - contradiction.
  - inversion Hall as [|? ? Hv _]; subst.
    destruct fuel as [|fuel]; [simpl in Hf; lia|].
    cbn [map join]. apply (parse_elements_last fuel _ tail); [|exact Ht].
    rewrite parse_value_skip by assumption. apply Hv. simpl in Hf; lia.
  - inversion Hall as [|? ? Hv Hrest]; subst.
    destruct fuel as [|fuel]; [simpl in Hf; lia|].
    cbn [map]. rewrite join_cons. repeat rewrite <- app_assoc. cbn [app].
    cbn [fold_right] in Hf.
    eapply parse_elements_more.
    + rewrite parse_value_skip by assumption. apply Hv. lia.
    + apply skip_ws_head. reflexivity.
    + apply IH; [discriminate | assumption | assumption |].
      cbn [fold_right]. lia.
Qed.

Lemma parse_members_joined (gap indent ws : jsstring) :
  forallb is_json_ws ws = true ->
  forall o : props,
    o <> [] ->
    Forall (fun kv => reads_back Number_toString StringToNumber gap indent (snd kv)) o ->
    forall (fuel : nat) (tail rest : jsstring),
      skip_ws tail = 125 :: rest ->
      (fold_right (fun kv n => S (size (snd kv)) + n) 0 o <= fuel)%nat ->
      parse_members StringToNumber fuel
        (ws ++ join (44 :: ws) (map (member_text Number_toString gap indent) o) ++ tail)
      = Some (map (fun kv => (fst kv, reparsed (snd kv))) o, rest).
Proof.
  intros Hws.
  assert (Hsp : forallb is_json_ws
                  match gap with [] => [] | _ => [32] end = true)
    by (destruct gap; reflexivity).
  induction o as [|[k v] [|kw o] IH];
    intros Hne Hall fuel tail rest Ht Hf.
  - contradiction.
  - inversion Hall as [|? ? Hv _]; subst. cbn [snd] in Hv.
    destruct fuel as [|fuel]; [simpl in Hf; lia|].
    cbn [map join]. unfold member_text. cbn [fst snd].
    repeat rewrite <- app_assoc. cbn [app].
    apply (parse_members_last fuel ws _ tail); [assumption | | exact Ht].
    rewrite <- app_assoc, parse_value_skip by assumption.
    apply Hv. simpl in Hf; lia.
  - inversion Hall as [|? ? Hv Hrest]; subst. cbn [snd] in Hv.
    destruct fuel as [|fuel]; [simpl in Hf; lia|].
    cbn [map]. rewrite join_cons. unfold member_text at 1. cbn [fst snd].
    repeat rewrite <- app_assoc. cbn [app].
    cbn [fold_right snd] in Hf.
    eapply parse_members_more.
    + assumption.
    + rewrite <- app_assoc, parse_value_skip by assumption. apply Hv. lia.
    + apply skip_ws_head. reflexivity.
    + apply IH; [discriminate | assumption | assumption |].
      cbn [fold_right]. lia.
Qed.

Lemma skip_ws_joined (ws sep tail p : jsstring) (ps : list jsstring)
  (c : code_unit) (t : jsstring) :
  forallb is_json_ws ws = true ->
  p = c :: t -> is_json_ws c = false ->
  exists t', skip_ws (ws ++ join sep (p :: ps) ++ tail) = c :: t'.
Proof.
  intros Hws -> Hc. rewrite (skip_ws_app _ _ Hws).
  destruct ps as [|q ps].
  - cbn [join app]. rewrite (skip_ws_head _ _ Hc). eexists; reflexivity.
  - rewrite join_cons. cbn [app]. rewrite (skip_ws_head _ _ Hc).
    eexists; reflexivity.
Qed.

Lemma head_not_ws (c : code_unit) :
  c = 34 \/ c = 91 \/ c = 123 ->
  is_json_ws c = false /\ c <> 93 /\ c <> 125.
Proof. intros [-> | [-> | ->]]; repeat split; discriminate. Qed.

(** [JSON.parse] reads the text of a value back, whatever white space
    [JSON.stringify] laid it out with. *)
Lemma parse_serialized (v : value) :
  NormalizedValue v = true ->
  forall gap indent : jsstring,
    forallb is_json_ws gap = true ->
    forallb is_json_ws indent = true ->
    reads_back Number_toString StringToNumber gap indent v.
Proof.
  induction v as [| |b|x|s|l IH|o IH] using value_induction;
    intros HN gap indent Hg Hi fuel rest Hf; try discriminate.
  - destruct fuel as [|fuel]; [simpl in Hf; lia|].
    unfold element_text. cbn [SerializeJSONProperty].
    unfold QuoteJSONString. cbn [app]. rewrite <- app_assoc. apply parse_value_string.
  - destruct fuel as [|fuel]; [simpl in Hf; lia|].
    destruct l as [|v0 l]; [reflexivity|].
    assert (Hi' : forallb is_json_ws (indent ++ gap) = true)
      by (rewrite forallb_app, Hi, Hg; reflexivity).
    pose proof (lead_ws gap _ Hi') as HA. pose proof (lead_ws gap _ Hi) as HB.
    unfold element_text. rewrite serialize_array by discriminate.
    cbn [app]. repeat rewrite <- app_assoc. cbn [app].
    simpl in HN. apply andb_true_iff in HN as HN'. destruct HN' as [HN0 HNl].
    destruct (element_text_head gap (indent ++ gap) v0 HN0)
      as (c & t & Ec & Hc).
    destruct (head_not_ws c Hc) as (Hws & H93 & _).
    destruct (skip_ws_joined _ (44 :: lead gap (indent ++ gap))
                (lead gap indent ++ 93 :: rest) _
                (map (element_text Number_toString gap (indent ++ gap)) l) c t HA Ec Hws)
      as (t' & Hskip).
    change (element_text Number_toString gap (indent ++ gap) v0
              :: map (element_text Number_toString gap (indent ++ gap)) l)
      with (map (element_text Number_toString gap (indent ++ gap)) (v0 :: l)) in Hskip.
    rewrite (parse_value_array fuel c _ t' Hskip H93).
    rewrite (parse_elements_joined gap (indent ++ gap) _ HA (v0 :: l))
      with (rest := rest).
    + reflexivity.
    + discriminate.
    + rewrite Forall_forall in *. intros e He.
      apply IH; try assumption.
      apply (forallb_In NormalizedValue (v0 :: l) e); [|exact He].
      simpl. rewrite HN0, HNl. reflexivity.
    + rewrite (skip_ws_app _ _ HB). apply skip_ws_head. reflexivity.
    + cbn [size] in Hf. lia.
  - destruct fuel as [|fuel]; [simpl in Hf; lia|].
    destruct o as [|[k0 v0] o]; [reflexivity|].
    assert (Hi' : forallb is_json_ws (indent ++ gap) = true)
      by (rewrite forallb_app, Hi, Hg; reflexivity).
    pose proof (lead_ws gap _ Hi') as HA. pose proof (lead_ws gap _ Hi) as HB.
    unfold element_text.
    rewrite serialize_object by (discriminate || exact HN).
    cbn [app]. repeat rewrite <- app_assoc. cbn [app].
    destruct (skip_ws_joined _ (44 :: lead gap (indent ++ gap))
                (lead gap indent ++ 125 :: rest)
                (member_text Number_toString gap (indent ++ gap) (k0, v0))
                (map (member_text Number_toString gap (indent ++ gap)) o) 34
                (quote_body k0 ++ [34] ++ 58 ::
                   match gap with [] => [] | _ => [32] end
                   ++ element_text Number_toString gap (indent ++ gap) v0)
                HA) as (t' & Hskip).
    { unfold member_text, QuoteJSONString. cbn [fst snd app].
      rewrite <- app_assoc. reflexivity. }
    { reflexivity. }
    change (member_text Number_toString gap (indent ++ gap) (k0, v0)
              :: map (member_text Number_toString gap (indent ++ gap)) o)
      with (map (member_text Number_toString gap (indent ++ gap)) ((k0, v0) :: o)) in Hskip.
    rewrite (parse_value_object fuel 34 _ t' Hskip) by discriminate.
    rewrite (parse_members_joined gap (indent ++ gap) _ HA ((k0, v0) :: o))
      with (rest := rest).
    + reflexivity.
    + discriminate.
    + rewrite Forall_forall in *. intros kv Hkv.
      apply IH; try assumption.
      apply (forallb_In (fun kv => NormalizedValue (snd kv)) _ kv HN Hkv).
    + rewrite (skip_ws_app _ _ HB). apply skip_ws_head. reflexivity.
    + cbn [size] in Hf. lia.
Qed.

(** The text of a value is at least as long as the value is large, so
    the fuel [JSON_parse] starts with is enough. *)
Lemma size_le_parts {A : Type} (weight : A -> nat) (text : A -> jsstring)
  (l : list A) :
  Forall (fun x => (weight x <= List.length (text x))%nat) l ->
  (fold_right (fun x n => S (weight x) + n) 0 l
   <= fold_right (fun p n => S (List.length p) + n) 0 (map text l))%nat.
Proof.
  induction 1 as [|x l Hx Hl IH]; cbn [fold_right map]; lia.
Qed.

Lemma size_le_text (v : value) :
  NormalizedValue v = true ->
  forall gap indent : jsstring,
    (size v <= List.length (element_text Number_toString gap indent v))%nat.
Proof.
  induction v as [| |b|x|s|l IH|o IH] using value_induction;
    intros HN gap indent; try discriminate.
  - unfold element_text. cbn [SerializeJSONProperty].
    unfold QuoteJSONString. simpl; lia.
  - destruct l as [|v0 l]; [simpl; lia|].
    unfold element_text. rewrite serialize_array by discriminate.
    cbn [size List.length]. rewrite !length_app. cbn [List.length].
    pose proof (length_join_parts (44 :: lead gap (indent ++ gap))
                  (map (element_text Number_toString gap (indent ++ gap)) (v0 :: l))
                  ltac:(discriminate)) as Hj.
    pose proof (size_le_parts size (element_text Number_toString gap (indent ++ gap))
                  (v0 :: l)) as Hs.
    assert ((fold_right (fun e n => S (size e) + n) 0 (v0 :: l)
             <= fold_right (fun p n => S (List.length p) + n) 0
                  (map (element_text Number_toString gap (indent ++ gap)) (v0 :: l)))%nat).
    { apply Hs. rewrite Forall_forall in *. intros e He.
      apply IH; [assumption|].
      apply (forallb_In NormalizedValue (v0 :: l) e HN He). }
    lia.
  - destruct o as [|kv0 o]; [simpl; lia|].
    unfold element_text. rewrite serialize_object by (discriminate || exact HN).
    cbn [size List.length]. rewrite !length_app. cbn [List.length].
    pose proof (length_join_parts (44 :: lead gap (indent ++ gap))
                  (map (member_text Number_toString gap (indent ++ gap)) (kv0 :: o))
                  ltac:(discriminate)) as Hj.
    pose proof (size_le_parts (fun kv => size (snd kv))
                  (member_text Number_toString gap (indent ++ gap)) (kv0 :: o)) as Hs.
    assert ((fold_right (fun kv n => S (size (snd kv)) + n) 0 (kv0 :: o)
             <= fold_right (fun p n => S (List.length p) + n) 0
                  (map (member_text Number_toString gap (indent ++ gap)) (kv0 :: o)))%nat).
    { apply Hs. rewrite Forall_forall in *. intros kv Hkv.
      unfold member_text. rewrite !length_app. cbn [List.length].
      rewrite length_app.
      specialize (IH kv Hkv
                    (forallb_In (fun kv => NormalizedValue (snd kv)) _ kv HN Hkv)
                    gap (indent ++ gap)).
      lia. }
    lia.
Qed.

Lemma repeat_space_ws (n : nat) : forallb is_json_ws (repeat 32 n) = true.
Proof. induction n; simpl; auto. Qed.

(** Serializing with any indentation and parsing the text gives the
    same value. *)
Lemma parse_stringify (v : value) (space : N) :
  NormalizedValue v = true ->
  exists text,
    JSON_stringify Number_toString v space = VString text
    /\ JSON_parse StringToNumber text = Some (reparsed v).
Proof.
  intros HN. unfold JSON_stringify.
  set (gap := repeat 32 (N.to_nat (N.min 10 space))).
  pose proof (parse_serialized v HN gap [] (repeat_space_ws _) eq_refl) as Hp.
  pose proof (size_le_text v HN gap []) as Hs.
  unfold reads_back, element_text in Hp. unfold element_text in Hs.
  destruct (serialize_normalized gap [] v HN) as (c & t & E & _).
  rewrite E in *. exists (c :: t). split; [reflexivity|].
  unfold JSON_parse.
  specialize (Hp (2 * List.length (c :: t) + 2)%nat [] ltac:(lia)).
  rewrite app_nil_r in Hp. rewrite Hp. reflexivity.
Qed.

(** C8: the compact text and the text indented by two spaces of a
    normalized value parse, and parse to the same value. *)
Theorem pretty_printing_is_cosmetic (v : value) :
  NormalizedValue v = true ->
  exists compact indented w,
    JSON_stringify Number_toString v 0 = VString compact
    /\ JSON_stringify Number_toString v 2 = VString indented
    /\ JSON_parse StringToNumber compact = Some w
    /\ JSON_parse StringToNumber indented = Some w.
Proof.
  intros HN.
  destruct (parse_stringify v 0 HN) as (compact & E0 & P0).
  destruct (parse_stringify v 2 HN) as (indented & E2 & P2).
  exists compact, indented, (reparsed v). auto.
Qed.

End RoundTrip.

Lemma pretty_printing_is_cosmetic_witness :
  exists compact indented w,
    JSON_stringify (fun _ => []) sample_output 0 = VString compact
    /\ JSON_stringify (fun _ => []) sample_output 2 = VString indented
    /\ JSON_parse (fun _ => S754_nan) compact = Some w
    /\ JSON_parse (fun _ => S754_nan) indented = Some w.
Proof.
  apply (pretty_printing_is_cosmetic (fun _ => []) (fun _ => S754_nan)
           sample_output).
  reflexivity.
Defined.

(** ** What the shell serializes *)

Lemma is_string_NormalizedValue (v : value) :
  is_string v = true -> NormalizedValue v = true.
Proof. destruct v; simpl; congruence. Qed.

(** The normal form of a tree of the data model is a value of the output
    data model: strings, arrays and objects only. *)
Lemma normalize_NormalizedValue (prefixAttr : bool) (node : value) :
  GenericNode node = true ->
  NormalizedValue (normalizeXmlJs prefixAttr node) = true.
Proof.
  induction node as [| |b|x|s|l IH|o IH] using value_induction;
    intros HG; try discriminate; try reflexivity.
  - simpl in *. apply forallb_forall. intros y Hy.
    apply in_map_iff in Hy as (x & <- & Hx).
    rewrite Forall_forall in IH.
    apply IH; [assumption | apply (forallb_In _ _ _ HG Hx)].
  - simpl. destruct (only_text (Object_keys o)) eqn:Eot.
    + apply only_text_inv in Eot as [t ->].
      unfold prop; cbn [obj_get]. rewrite str_eqb_refl.
      apply is_string_NormalizedValue.
      simpl in HG. rewrite andb_true_r in HG. exact HG.
    + simpl. apply forallb_forall. apply Forall_forall.
      apply fold_left_invariant.
      * unfold merge_attributes, prop.
        destruct (obj_get o key_attributes) as [attrs|] eqn:G; [|constructor].
        destruct (is_object_like attrs); [|constructor].
        destruct (GenericNode_attributes o attrs HG G) as (a & -> & Ha).
        apply fold_left_invariant; [constructor|].
        intros out kv Hkv Hout. apply obj_set_Forall; [assumption|].
        intros _. simpl. apply is_string_NormalizedValue.
        apply (forallb_In _ _ _ Ha Hkv).
      * intros out kv Hkv Hout. unfold child_step.
        destruct (is_sentinel (fst kv)) eqn:Es; [assumption|].
        apply obj_set_Forall; [assumption|]. intros _. simpl.
        rewrite Forall_forall in IH. apply IH; [assumption|].
        apply (GenericNode_child o kv HG Hkv Es).
Qed.

(** Defining the properties of an enumerated object one by one, in
    order, builds that object again. *)
Lemma define_all_rebuild (rest : props) :
  forall acc : props,
    enumerated (Object_keys (acc ++ rest)) ->
    fold_left (fun o kv => obj_define o (fst kv) (snd kv)) rest acc
    = acc ++ rest.
Proof.
  induction rest as [|[k v] rest IH]; intros acc He; simpl.
  - rewrite app_nil_r; reflexivity.
  - assert (Hdef : obj_define acc k v = acc ++ [(k, v)]).
    { unfold obj_define, Object_keys in *.
      rewrite map_app in He. simpl in He.
      assert (Hacc : forall e, In e (map fst acc) -> may_follow e k).
      { intros e Hin.
        apply (ForallOrdPairs_app_inv _ _ _ He e k Hin). left; reflexivity. }
      assert (Hnew : has_key k acc = false).
      { apply has_key_false. intros Hin.
        destruct (Hacc k Hin) as [Hne _]. apply Hne; reflexivity. }
      rewrite Hnew. apply insert_at_end.
      apply Forall_forall. intros e Hin. apply (Hacc e Hin). }
    rewrite Hdef. rewrite IH.
    + rewrite <- app_assoc; reflexivity.
    + rewrite <- app_assoc; exact He.
Qed.

(** Parsing the text of a built value gives the value itself. *)
Lemma reparsed_built (v : value) : built v -> reparsed v = v.
Proof.
  induction v as [| |b|x|s|l IH|o IH] using value_induction;
    intros Hb; try reflexivity.
  - inversion Hb as [? Harr _|? Hl|]; subst; [discriminate|].
    simpl. f_equal. apply map_fixed.
    rewrite Forall_forall in *. intros x Hx. apply IH; auto.
  - inversion Hb as [? _ Hobj| |? He Hp Hv]; subst; [discriminate|].
    simpl. f_equal.
    assert (Hmap : map (fun kv => (fst kv, reparsed (snd kv))) o = o).
    { apply map_fixed. rewrite Forall_forall in *. intros [k v] Hkv. simpl.
      f_equal. apply (IH (k, v) Hkv). apply (Hv (k, v) Hkv). }
    rewrite Hmap. unfold define_all.
    rewrite define_all_rebuild; [reflexivity | exact He].
Qed.

Section Serialized.

Variable Number_toString : spec_float -> jsstring.
Variable StringToNumber : jsstring -> spec_float.

(** X11: the text [JSON.stringify] writes for the normal form of a tree
    of the data model, with any indentation, is read back by [JSON.parse]
    as that normal form itself. *)
Lemma parse_stringify_normalized (prefixAttr : bool) (node : value)
  (space : N) :
  GenericNode node = true ->
  exists text,
    JSON_stringify Number_toString (normalizeXmlJs prefixAttr node) space
    = VString text
    /\ JSON_parse StringToNumber text = Some (normalizeXmlJs prefixAttr node).
Proof.
  intros HG.
  destruct (parse_stringify Number_toString StringToNumber
              (normalizeXmlJs prefixAttr node) space
              (normalize_NormalizedValue prefixAttr node HG))
    as (text & E & P).
  exists text. split; [exact E|].
  rewrite P. rewrite (reparsed_built _ (normalize_built prefixAttr node HG)).
  reflexivity.
Qed.

End Serialized.

Lemma parse_stringify_normalized_witness :
  exists text,
    JSON_stringify (fun _ => []) (normalizeXmlJs true (VObject sample_element)) 2
    = VString text
    /\ JSON_parse (fun _ => S754_nan) text
       = Some (normalizeXmlJs true (VObject sample_element)).
Proof.
  apply (parse_stringify_normalized (fun _ => []) (fun _ => S754_nan)
           true (VObject sample_element) 2).
  reflexivity.
Defined.

(** ** The two loops of the normalizer *)

Lemma merge_attributes_entries (prefixAttr : bool) (o out : props) :
  merge_attributes prefixAttr (prop o key_attributes) out
  = fold_left (fun out kv => obj_set out (attr_key prefixAttr (fst kv)) (snd kv))
      (attribute_entries o) out.
Proof.
  unfold merge_attributes, attribute_entries.
  destruct (is_object_like (prop o key_attributes)); reflexivity.
Qed.

Lemma fold_child_step_entries (prefixAttr : bool) (o out : props) :
  fold_left (child_step prefixAttr) o out
  = fold_left (fun out kv => obj_set out (fst kv) (snd kv))
      (map (fun kv => (fst kv, normalizeXmlJs prefixAttr (snd kv)))
         (child_entries o)) out.
Proof.
  revert out. induction o as [|kv o IH]; intros out; [reflexivity|].
  cbn [fold_left]. unfold child_entries. cbn [filter].
  unfold child_step at 2.
  destruct (is_sentinel (fst kv)); cbn [negb map fold_left fst snd]; apply IH.
Qed.

(** The properties of a normalized element are assigned one by one in the
    order of [assigned]. *)
Lemma normalizeXmlJs_assigned (prefixAttr : bool) (o : props) :
  only_text (Object_keys o) = false ->
  normalizeXmlJs prefixAttr (VObject o)
  = VObject (fold_left (fun out kv => obj_set out (fst kv) (snd kv))
               (assigned prefixAttr o) []).
Proof.
  intros Hot. rewrite (normalizeXmlJs_object _ _ Hot).
  rewrite merge_attributes_entries, fold_child_step_entries.
  unfold assigned. rewrite fold_left_app. f_equal. f_equal.
  generalize (@nil (list N * value)).
  induction (attribute_entries o) as [|kv a IH]; intros out; [reflexivity|].
  cbn [map fold_left fst snd]. apply IH.
Qed.

Lemma existsb_str_eqb (k : jsstring) (ks : list jsstring) :
  existsb (str_eqb k) ks = false <-> ~ In k ks.
Proof.
  induction ks as [|k' ks IH]; simpl.
  - split; [intros _ [] | reflexivity].
  - rewrite orb_false_iff, IH, str_eqb_neq. split.
    + intros [Hne Hnin] [Heq|Hin]; [congruence | auto].
    + intros H; split; [intros ->; apply H; left; reflexivity|].
      intros Hin; apply H; right; exact Hin.
Qed.

Lemma ordinary_key_set (out : props) (k : jsstring) (v : value) :
  ordinary_key k = true -> ~ In k (Object_keys out) ->
  obj_set out k v = out ++ [(k, v)].
Proof.
  unfold ordinary_key. intros Hk Hnew.
  destruct (array_index k) as [i|] eqn:Ei; [discriminate|].
  apply negb_true_iff in Hk.
  unfold obj_set, obj_define. rewrite Hk.
  apply has_key_false in Hnew. rewrite Hnew.
  apply insert_at_end. apply Forall_forall. intros e _.
  unfold enumerates_before. rewrite Ei. reflexivity.
Qed.

(** Assigning ordinary keys that are all different appends them in order. *)
Lemma fold_set_ordinary (l : props) :
  forall out : props,
    distinct (Object_keys (out ++ l)) = true ->
    forallb ordinary_key (Object_keys l) = true ->
    fold_left (fun out kv => obj_set out (fst kv) (snd kv)) l out = out ++ l.
Proof.
  induction l as [|[k v] l IH]; intros out Hd Ho; cbn [fold_left fst snd].
  - rewrite app_nil_r; reflexivity.
  - simpl in Ho. apply andb_true_iff in Ho as [Hk Hl].
    assert (Hnew : ~ In k (Object_keys out)).
    { clear - Hd. induction out as [|[k' v'] out IHo]; [intros []|].
      simpl in Hd. apply andb_true_iff in Hd as [Hk' Hd].
      apply negb_true_iff, existsb_str_eqb in Hk'.
      intros [Heq|Hin]; [|exact (IHo Hd Hin)].
      apply Hk'. simpl in Heq. subst k'. unfold Object_keys.
      rewrite map_app. apply in_or_app; right; left; reflexivity. }
    rewrite (ordinary_key_set out k v Hk Hnew).
    rewrite IH; [rewrite <- app_assoc; reflexivity | | exact Hl].
    rewrite <- app_assoc. exact Hd.
Qed.

(** X3: when the keys the two loops assign are ordinary and all different,
    the normalized element is exactly the attributes under their output
    keys, in the order of the parser, followed by the normalized children
    in document order. *)
Theorem normalize_attributes_then_children (prefixAttr : bool) (o : props) :
  only_text (Object_keys o) = false ->
  distinct (Object_keys (assigned prefixAttr o)) = true ->
  forallb ordinary_key (Object_keys (assigned prefixAttr o)) = true ->
  normalizeXmlJs prefixAttr (VObject o) = VObject (assigned prefixAttr o).
Proof.
  intros Hot Hd Ho. rewrite (normalizeXmlJs_assigned _ _ Hot).
  rewrite fold_set_ordinary; [reflexivity | exact Hd | exact Ho].
Qed.

Lemma normalize_attributes_then_children_witness :
  normalizeXmlJs true (VObject sample_element)
  = VObject [(js "_id", VString (js "1")); (js "b", VString (js "x"));
             (js "c", VObject [])].
Proof.
  apply (normalize_attributes_then_children true sample_element);
    reflexivity.
Defined.

Lemma obj_get_of_key (o : props) (k : jsstring) :
  In k (Object_keys o) -> exists v, obj_get o k = Some v.
Proof.
  induction o as [|[k' v'] o IH]; simpl; [intros []|].
  intros [Heq|Hin].
  - subst k'. rewrite str_eqb_refl. eexists; reflexivity.
  - destruct (str_eqb k k'); [eexists; reflexivity | auto].
Qed.

Lemma key_of_obj_get (o : props) (k : jsstring) (v : value) :
  obj_get o k = Some v -> In k (Object_keys o).
Proof.
  intros H. apply obj_get_In in H. apply (in_map fst _ _ H).
Qed.

Lemma keys_set_keep (out : props) (k l : jsstring) (v : value) :
  In l (Object_keys out) -> In l (Object_keys (obj_set out k v)).
Proof.
  intros Hin. destruct (obj_get_of_key out l Hin) as [w Hw].
  destruct (str_eqb l k) eqn:E.
  - apply str_eqb_eq in E; subst l.
    destruct (str_eqb k key_proto) eqn:Ep.
    + unfold obj_set. rewrite Ep. exact Hin.
    + apply str_eqb_neq in Ep.
      apply (key_of_obj_get _ _ v). apply obj_get_set_same; exact Ep.
  - apply str_eqb_neq in E. apply (key_of_obj_get _ _ w).
    rewrite obj_get_set_other; assumption.
Qed.

Lemma keys_fold_set (l : props) :
  forall (out : props) (k : jsstring),
    In k (Object_keys (fold_left (fun out kv => obj_set out (fst kv) (snd kv))
                         l out))
    <-> In k (Object_keys out)
        \/ (In k (Object_keys l) /\ k <> key_proto).
Proof.
  induction l as [|[k' v'] l IH]; intros out k; cbn [fold_left fst snd].
  - simpl. tauto.
  - rewrite IH. simpl. split.
    + intros [H|[H Hp]].
      * destruct (keys_set_In _ _ _ _ H) as [[-> Hne]|Hin]; auto.
      * auto.
    + intros [H|[[Heq|H] Hp]].
      * left. apply keys_set_keep; exact H.
      * subst k'. left. apply (key_of_obj_get _ _ v').
        apply obj_get_set_same; exact Hp.
      * auto.
Qed.

(** X4: for an element of the data model that is not a pure text leaf,
    the keys of the normalized object are the keys its two loops assign,
    except ["__proto__"]: prefixed attribute names and the keys of the
    children that are not reserved, and nothing else. *)
Theorem normalize_keys (prefixAttr : bool) (o : props) (k : jsstring) :
  GenericNode (VObject o) = true ->
  only_text (Object_keys o) = false ->
  In k (Object_keys (Object_entries (normalizeXmlJs prefixAttr (VObject o))))
  <-> In k (Object_keys (assigned prefixAttr o)) /\ k <> key_proto.
Proof.
  intros _ Hot. rewrite (normalizeXmlJs_assigned _ _ Hot).
  cbn [Object_entries]. rewrite keys_fold_set. simpl. tauto.
Qed.

Lemma normalize_keys_witness :
  In (js "_id")
    (Object_keys (Object_entries (normalizeXmlJs true (VObject sample_element))))
  <-> In (js "_id") (Object_keys (assigned true sample_element))
      /\ js "_id" <> key_proto.
Proof.
  apply (normalize_keys true sample_element (js "_id")); reflexivity.
Defined.

Lemma fold_left_ext_in {A B : Type} (f g : A -> B -> A) (l : list B) :
  (forall a b, In b l -> f a b = g a b) ->
  forall a, fold_left f l a = fold_left g l a.
Proof.
  induction l as [|b l IH]; intros H a; [reflexivity|].
  simpl. rewrite (H a b (or_introl eq_refl)).
  apply IH. intros a' b' Hb'. apply H; right; exact Hb'.
Qed.

(** X5: on a tree in which no visited element has attributes, the option
    [prefixAttr] makes no difference. *)
Theorem normalize_option_only_for_attributes (node : value) :
  attribute_free node = true ->
  normalizeXmlJs true node = normalizeXmlJs false node.
Proof.
  induction node as [| |b|x|s|l IH|o IH] using value_induction;
    intros Hf; try reflexivity.
  - simpl. f_equal. apply map_ext_in. intros x Hx.
    rewrite Forall_forall in IH. apply IH; [exact Hx|].
    apply (forallb_In attribute_free l x Hf Hx).
  - simpl in Hf. simpl.
    destruct (only_text (Object_keys o)); [reflexivity|].
    assert (Hattrs : obj_get o key_attributes = None).
    { apply obj_get_None. unfold Object_keys. intros Hin.
      apply in_map_iff in Hin as (kv & Hk & Hin).
      pose proof (forallb_In _ _ _ Hf Hin) as H. cbn beta in H.
      rewrite Hk, str_eqb_refl in H. discriminate. }
    unfold prop. rewrite Hattrs. unfold merge_attributes; simpl.
    f_equal. apply fold_left_ext_in. intros out kv Hkv.
    destruct (is_sentinel (fst kv)) eqn:Es; [reflexivity|].
    f_equal. rewrite Forall_forall in IH. apply IH; [exact Hkv|].
    pose proof (forallb_In _ _ _ Hf Hkv) as H. cbn beta in H.
    rewrite Es in H. destruct (is_sentinel_false _ Es) as (H1 & _).
    rewrite H1 in H. exact H.
Qed.

Lemma normalize_option_only_for_attributes_witness :
  normalizeXmlJs true
    (VObject [(js "a", VArray [VObject [(key_text, VString (js "1"))];
                                VObject [(js "b", VObject [])]])])
  = normalizeXmlJs false
      (VObject [(js "a", VArray [VObject [(key_text, VString (js "1"))];
                                  VObject [(js "b", VObject [])]])]).
Proof.
  apply normalize_option_only_for_attributes. reflexivity.
Defined.

Lemma fold_child_step_without_sentinel (prefixAttr : bool) (k : jsstring)
  (o out : props) :
  is_sentinel k = true ->
  fold_left (child_step prefixAttr) (without_key k o) out
  = fold_left (child_step prefixAttr) o out.
Proof.
  intros Hk. revert out; induction o as [|[k' v] o IH]; intros out; simpl;
    [reflexivity|].
  destruct (str_eqb k' k) eqn:E; simpl.
  - rewrite IH. apply str_eqb_eq in E; subst k'.
    unfold child_step at 3; simpl. rewrite Hk. reflexivity.
  - apply IH.
Qed.

(** X6: the declaration of an element has no part in its normal form:
    unless the element is left with its text alone, taking the declaration
    away does not change the result. *)
Theorem normalize_drops_declaration (prefixAttr : bool) (o : props) :
  only_text (Object_keys (without_key key_declaration o)) = false ->
  normalizeXmlJs prefixAttr (VObject o)
  = normalizeXmlJs prefixAttr (VObject (without_key key_declaration o)).
Proof.
  intros Hw.
  assert (Hot : only_text (Object_keys o) = false).
  { destruct (only_text (Object_keys o)) eqn:E; [|reflexivity].
    apply only_text_inv in E as [t ->]. exact Hw. }
  rewrite (normalizeXmlJs_object _ _ Hot), (normalizeXmlJs_object _ _ Hw).
  rewrite fold_child_step_without_sentinel by reflexivity.
  unfold prop. rewrite obj_get_without by discriminate. reflexivity.
Qed.

Lemma normalize_drops_declaration_witness :
  normalizeXmlJs true
    (VObject [(key_declaration,
                VObject [(key_attributes,
                          VObject [(js "version", VString (js "1.0"))])]);
              (js "a", VObject [(key_text, VString (js "x"))])])
  = normalizeXmlJs true
      (VObject [(js "a", VObject [(key_text, VString (js "x"))])]).
Proof.
  apply (normalize_drops_declaration true
           [(key_declaration,
              VObject [(key_attributes,
                        VObject [(js "version", VString (js "1.0"))])]);
            (js "a", VObject [(key_text, VString (js "x"))])]).
  reflexivity.
Defined.

(** X7: the normal form of a tree of the data model holds strings, arrays
    and objects only, and each of its objects has distinct keys in
    enumeration order, none of them ["__proto__"]. *)
Theorem normalize_output_well_formed (prefixAttr : bool) (node : value) :
  GenericNode node = true ->
  NormalizedValue (normalizeXmlJs prefixAttr node) = true
  /\ built (normalizeXmlJs prefixAttr node).
Proof.
  intros HG. split.
  - apply normalize_NormalizedValue; exact HG.
  - apply normalize_built; exact HG.
Qed.

Lemma normalize_output_well_formed_witness :
  NormalizedValue (normalizeXmlJs true (VObject sample_element)) = true
  /\ built (normalizeXmlJs true (VObject sample_element)).
Proof.
  apply (normalize_output_well_formed true (VObject sample_element)).
  reflexivity.
Defined.

Lemma normalize_keeps_attribute_witness :
  member (normalizeXmlJs true (VObject sample_element)) (attr_key true (js "id"))
  = VString (js "1").
Proof.
  apply (normalize_keeps_attribute true sample_element sample_attributes
           (js "id") (VString (js "1"))).
  - reflexivity.
  - reflexivity.
  - repeat constructor. intros [].
  - left; reflexivity.
  - discriminate.
  - intros kv [<-|[<-|[<-|[]]]]; simpl; intros Hs; discriminate.
Defined.

Lemma normalize_child_overwrites_witness :
  member
    (normalizeXmlJs true
       (VObject [(key_attributes, VObject [(js "x", VString (js "attr"))]);
                 (js "_x", VObject [(key_text, VString (js "child"))])]))
    (js "_x")
  = normalizeXmlJs true (VObject [(key_text, VString (js "child"))]).
Proof.
  apply (normalize_child_overwrites true
           [(key_attributes, VObject [(js "x", VString (js "attr"))]);
            (js "_x", VObject [(key_text, VString (js "child"))])]
           (js "_x") (VObject [(key_text, VString (js "child"))])).
  - repeat constructor; simpl; intuition discriminate.
  - right; left; reflexivity.
  - reflexivity.
  - discriminate.
Defined.

(** ** More of the conversion shell *)

Section ShellExtras.

Variable Number_toString : spec_float -> jsstring.
Variable StringToNumber : jsstring -> spec_float.
Variable xml2js : jsstring -> outcome value.
Variable xml2json : jsstring -> bool -> outcome jsstring.

(** [onConvert] by the fields it leaves. *)
Lemma onConvert_fields (st : state) :
  onConvert Number_toString xml2js st
  = if negb (truthy (VString (trim (xml st)))) then
      mkState (xml st) (VString []) (VString []) (pretty st)
    else
      match xml2js (xml st) with
      | Returns jsObj =>
          mkState (xml st)
            (JSON_stringify Number_toString (normalizeXmlJs true jsObj)
               (if pretty st then 2 else 0))
            (VString []) (pretty st)
      | Throws e =>
          mkState (xml st) (VString [])
            (js_or (optional_message e) fallback_message) (pretty st)
      end.
Proof.
  unfold onConvert, setJson, setError. cbn [xml json error pretty].
  destruct (negb (truthy (VString (trim (xml st))))); [reflexivity|].
  destruct (xml2js (xml st)); reflexivity.
Qed.

Lemma AppJsx_onConvert_fields (st : state) :
  AppJsx.onConvert xml2json st
  = if negb (truthy (VString (trim (xml st)))) then
      mkState (xml st) (VString []) (VString []) (pretty st)
    else
      match xml2json (xml st) (pretty st) with
      | Returns result =>
          mkState (xml st) (VString result) (VString []) (pretty st)
      | Throws e =>
          mkState (xml st) (VString [])
            (js_or (optional_message e) fallback_message) (pretty st)
      end.
Proof.
  unfold AppJsx.onConvert, setJson, setError. cbn [xml json error pretty].
  destruct (negb (truthy (VString (trim (xml st))))); [reflexivity|].
  destruct (xml2json (xml st) (pretty st)); reflexivity.
Qed.

(** X8: a conversion leaves the input text and the Pretty flag as they
    are, and never leaves an error together with an output: when the error
    it sets is truthy the output is the empty string. *)
Theorem onConvert_error_excludes_output (st : state) :
  (xml (onConvert Number_toString xml2js st) = xml st
   /\ pretty (onConvert Number_toString xml2js st) = pretty st
   /\ (truthy (error (onConvert Number_toString xml2js st)) = true ->
       json (onConvert Number_toString xml2js st) = VString []))
  /\ (xml (AppJsx.onConvert xml2json st) = xml st
      /\ pretty (AppJsx.onConvert xml2json st) = pretty st
      /\ (truthy (error (AppJsx.onConvert xml2json st)) = true ->
          json (AppJsx.onConvert xml2json st) = VString [])).
Proof.
  rewrite onConvert_fields, AppJsx_onConvert_fields. split.
  - destruct (negb (truthy (VString (trim (xml st)))));
      [|destruct (xml2js (xml st))]; simpl;
      repeat split; intros; try reflexivity; discriminate.
  - destruct (negb (truthy (VString (trim (xml st)))));
      [|destruct (xml2json (xml st) (pretty st))]; simpl;
      repeat split; intros; try reflexivity; discriminate.
Qed.

(** X9: converting twice in a row is the same as converting once. *)
Theorem onConvert_twice (st : state) :
  onConvert Number_toString xml2js (onConvert Number_toString xml2js st)
  = onConvert Number_toString xml2js st
  /\ AppJsx.onConvert xml2json (AppJsx.onConvert xml2json st)
     = AppJsx.onConvert xml2json st.
Proof.
  split.
  - rewrite (onConvert_fields st).
    destruct (negb (truthy (VString (trim (xml st))))) eqn:Eb;
      [|destruct (xml2js (xml st)) eqn:Ep];
      rewrite onConvert_fields; cbn [xml pretty]; rewrite Eb; try rewrite Ep;
      reflexivity.
  - rewrite (AppJsx_onConvert_fields st).
    destruct (negb (truthy (VString (trim (xml st))))) eqn:Eb;
      [|destruct (xml2json (xml st) (pretty st)) eqn:Ep];
      rewrite AppJsx_onConvert_fields; cbn [xml pretty]; rewrite Eb;
      try rewrite Ep; reflexivity.
Qed.

Lemma js_or_fallback_truthy (m : value) :
  truthy (js_or m fallback_message) = true.
Proof. unfold js_or. destruct (truthy m) eqn:E; [exact E | reflexivity]. Qed.

(** X10: when the parser throws on an input with a code unit that is not
    white space, an error is shown, whatever the exception holds, the
    output is empty and the Copy and Download buttons are disabled. *)
Theorem failed_conversion_shows_error (st : state) (e : value) :
  forallb is_white_space (xml st) = false ->
  (xml2js (xml st) = Throws e ->
   error_shown (onConvert Number_toString xml2js st) = true
   /\ json (onConvert Number_toString xml2js st) = VString []
   /\ buttons_disabled (onConvert Number_toString xml2js st) = true)
  /\ (xml2json (xml st) (pretty st) = Throws e ->
      error_shown (AppJsx.onConvert xml2json st) = true
      /\ json (AppJsx.onConvert xml2json st) = VString []
      /\ buttons_disabled (AppJsx.onConvert xml2json st) = true).
Proof.
  intros Hx. apply trim_nonblank in Hx.
  rewrite onConvert_fields, AppJsx_onConvert_fields. rewrite Hx.
  unfold error_shown, buttons_disabled.
  split; intros ->; simpl; rewrite js_or_fallback_truthy; auto.
Qed.

End ShellExtras.

Lemma failed_conversion_shows_error_witness :
  error_shown (onConvert (fun _ => []) (fun _ => Throws silent_exception)
                 unclosed_input) = true
  /\ json (onConvert (fun _ => []) (fun _ => Throws silent_exception)
             unclosed_input) = VString []
  /\ buttons_disabled (onConvert (fun _ => []) (fun _ => Throws silent_exception)
                         unclosed_input) = true.
Proof.
  apply (failed_conversion_shows_error (fun _ => [])
           (fun _ => Throws silent_exception)
           (fun _ _ => Throws silent_exception)
           unclosed_input silent_exception eq_refl).
  reflexivity.
Defined.


(** ** The component between events *)

Lemma setPretty_same (st : state) : setPretty st (pretty st) = st.
Proof. destruct st; reflexivity. Qed.

Section ComponentExtras.

Variable Number_toString : spec_float -> jsstring.
Variable xml2js : jsstring -> outcome value.

Lemma onConvert_keeps_pretty (st : state) :
  pretty (onConvert Number_toString xml2js st) = pretty st.
Proof.
  unfold onConvert, setJson, setError. cbn [xml json error pretty].
  destruct (negb (truthy (VString (trim (xml st))))); [reflexivity|].
  destruct (xml2js (xml st)); reflexivity.
Qed.

Lemma onConvert_error_or_output (st : state) :
  truthy (error (onConvert Number_toString xml2js st)) = true ->
  json (onConvert Number_toString xml2js st) = VString [].
Proof.
  unfold onConvert, setJson, setError. cbn [xml json error pretty].
  destruct (negb (truthy (VString (trim (xml st))))); [reflexivity|].
  destruct (xml2js (xml st)); [discriminate | reflexivity].
Qed.

Lemma onConvert_setPretty (st : state) :
  setPretty (onConvert Number_toString xml2js st) (pretty st)
  = onConvert Number_toString xml2js st.
Proof.
  pose proof (setPretty_same (onConvert Number_toString xml2js st)) as H.
  rewrite onConvert_keeps_pretty in H. exact H.
Qed.

(** X12: the Pretty toggle does not reach the Convert button until the
    input text changes: toggling and then converting gives the state that
    converting and then toggling gives, so the output and the error are
    those of a conversion made before the toggle. *)
Theorem toggle_then_convert (checked : bool) (a : App) :
  click_Convert Number_toString xml2js (change_pretty checked a)
  = change_pretty checked (click_Convert Number_toString xml2js a)
  /\ json (view (click_Convert Number_toString xml2js (change_pretty checked a)))
     = json (view (click_Convert Number_toString xml2js a))
  /\ error (view (click_Convert Number_toString xml2js (change_pretty checked a)))
     = error (view (click_Convert Number_toString xml2js a)).
Proof. repeat split. Qed.

(** X13: after the input text has changed, by typing, by choosing a file or
    by dropping one, Convert converts the new text with the Pretty flag as
    it is then; a drop also ends the drag highlight. *)
Theorem convert_after_new_input (value : jsstring) (a : App) :
  str_eqb value (xml (view a)) = false ->
  view (click_Convert Number_toString xml2js (change_input value a))
  = onConvert Number_toString xml2js (setXml (view a) value)
  /\ view (click_Convert Number_toString xml2js (onFileChange (Some value) a))
     = onConvert Number_toString xml2js (setXml (view a) value)
  /\ view (click_Convert Number_toString xml2js (onDrop (Some value) a))
     = onConvert Number_toString xml2js (setXml (view a) value)
  /\ isDragOver (onDrop (Some value) a) = false.
Proof.
  intros Hne.
  assert (H : view (click_Convert Number_toString xml2js (change_input value a))
              = onConvert Number_toString xml2js (setXml (view a) value)).
  { destruct a as [[x j e p] d cp]. cbn [view xml] in Hne.
    unfold click_Convert, change_input, rerender, setXml.
    cbn [view xml json error pretty]. rewrite Hne.
    cbn [view convert_pretty pretty isDragOver].
    apply (onConvert_setPretty (mkState value j e p)). }
  repeat split; exact H.
Qed.

(** X14: Clear empties input, output and error, which disables the Copy and
    Download buttons and shows no error, and a conversion right after it
    changes nothing. *)
Theorem clear_then_convert (a : App) :
  xml (view (click_Clear a)) = []
  /\ buttons_disabled (view (click_Clear a)) = true
  /\ error_shown (view (click_Clear a)) = false
  /\ click_Convert Number_toString xml2js (click_Clear a) = click_Clear a.
Proof.
  unfold click_Clear, rerender. cbn [view xml].
  destruct (str_eqb [] (xml (view a))); repeat split.
Qed.

(** X15: whatever the events since the first render, an error is never
    shown together with an output: while an error is shown the output is
    the empty string and the Copy and Download buttons are disabled. *)
Theorem error_never_beside_output (events : list event) :
  error_shown (view (run Number_toString xml2js events)) = true ->
  json (view (run Number_toString xml2js events)) = VString []
  /\ buttons_disabled (view (run Number_toString xml2js events)) = true.
Proof.
  assert (H : truthy (error (view (run Number_toString xml2js events))) = true ->
              json (view (run Number_toString xml2js events)) = VString []).
  { unfold run. apply fold_left_invariant; [reflexivity|].
    intros a e _ Ha. destruct e as [value|checked| | |file|file| |];
      cbn [handle].
    - unfold change_input, rerender. cbn [view xml setXml].
      destruct (str_eqb value (xml (view a))); exact Ha.
    - exact Ha.
    - unfold click_Convert. cbn [view setPretty json error].
      apply onConvert_error_or_output.
    - unfold click_Clear, rerender. cbn [view xml].
      destruct (str_eqb [] (xml (view a))); reflexivity.
    - destruct file as [text|]; [|exact Ha].
      unfold onFileChange, change_input, rerender. cbn [view xml setXml].
      destruct (str_eqb text (xml (view a))); exact Ha.
    - destruct file as [text|]; [|exact Ha].
      unfold onDrop, onFileChange, change_input, rerender.
      cbn [view xml setXml].
      destruct (str_eqb text (xml (view a))); exact Ha.
    - unfold onDragOver. destruct (negb (isDragOver a)); exact Ha.
    - exact Ha. }
  unfold error_shown, buttons_disabled. intros He.
  rewrite (H He). split; reflexivity.
Qed.

End ComponentExtras.

Lemma convert_after_new_input_witness :
  view (click_Convert (fun _ => []) accepting_parser
          (change_input (js "<a/>") initial_app))
  = onConvert (fun _ => []) accepting_parser
      (setXml (view initial_app) (js "<a/>")).
Proof.
  apply (convert_after_new_input (fun _ => []) accepting_parser
           (js "<a/>") initial_app).
  reflexivity.
Defined.

Lemma error_never_beside_output_witness :
  json (view (run (fun _ => []) rejecting_parser
                [Input (js "<a><b></a>"); Convert; Pretty false; DragOver]))
  = VString []
  /\ buttons_disabled
       (view (run (fun _ => []) rejecting_parser
                [Input (js "<a><b></a>"); Convert; Pretty false; DragOver]))
     = true.
Proof.
  apply (error_never_beside_output (fun _ => []) rejecting_parser
           [Input (js "<a><b></a>"); Convert; Pretty false; DragOver]).
  reflexivity.
Defined.

(** The flag is unchecked after the text was typed, and the output is
    still indented. *)
Example unchecked_but_indented :
  view (run (fun _ => []) accepting_parser
          [Input (js "<a/>"); Pretty false; Convert])
  = mkState (js "<a/>")
      (VString ([123; 10] ++ js "  " ++ [34] ++ js "a" ++ [34; 58; 32]
                  ++ js "{}" ++ [10; 125]))
      (VString []) false.
Proof. reflexivity. Qed.
